(** * Star-Attention: the RULER common-words generator and the BABILong sweep script

    A shallow embedding of two Python scripts,

      - [ruler/data/synthetic/common_words_extraction.py]  (module [CommonWords])
      - [run_babilong.py]                                   (module [Babilong])

    Python integers are [Z], Python [str] is [string], exceptions and the
    mutable process state (random stream, standard output, file system and
    spawned commands) are threaded through a state-and-exception monad. *)

From Stdlib Require Import ZArith String Ascii List Lia Bool.
From Stdlib Require OrdersEx.
From stdpp Require Import base list sorting strings pretty.

Local Open Scope Z_scope.

(** ** Python exceptions *)

Inductive exn : Type :=
| AssertionError (msg : string)
| FileNotFoundError (msg : string)
| KeyError (key : string)
| ValueError (msg : string)
| ZeroDivisionError
| TypeError.

(** ** State and exception monad

    A computation reads and writes a state [S]; it either returns a value or
    stops with an error of type [E].  The state survives an error, as a
    Python exception does not undo earlier side effects. *)

Module Monad.

Definition M (S E A : Type) : Type := S -> (E + A) * S.

Definition ret {S E A} (a : A) : M S E A := fun s => (inr a, s).

Definition raise {S E A} (e : E) : M S E A := fun s => (inl e, s).

Definition bind {S E A B} (m : M S E A) (k : A -> M S E B) : M S E B :=
  fun s => match m s with
           | (inr a, s') => k a s'
           | (inl e, s') => (inl e, s')
           end.

Definition gets {S E A} (f : S -> A) : M S E A := fun s => (inr (f s), s).

Definition modify {S E} (f : S -> S) : M S E unit := fun s => (inr tt, f s).

(** Python's [for x in l: body]. *)
Fixpoint for_each {S E A} (l : list A) (body : A -> M S E unit) : M S E unit :=
  match l with
  | [] => ret tt
  | x :: rest => bind (body x) (fun _ => for_each rest body)
  end.

Module Notations.
Notation "x <- c1 ;; c2" := (bind c1 (fun x => c2))
  (at level 62, c1 at next level, right associativity).
End Notations.

End Monad.

(** ** Python built-ins used by the scripts *)

Module Py.

(** [str(n)] and [f'{n}'] for an integer. *)
Definition str_of_int (n : Z) : string := pretty n.

(** [a // b]: floor division; [None] stands for [ZeroDivisionError]. *)
Definition floordiv (a b : Z) : option Z :=
  if b =? 0 then None else Some (a `div` b).

(** [sub in s] for strings. *)
Fixpoint str_contains (sub s : string) : bool :=
  String.prefix sub s ||
  match s with
  | EmptyString => false
  | String _ rest => str_contains sub rest
  end.

(** [s.startswith(c)] and [s.endswith(c)] for a one-character [c]. *)
Definition starts_with_char (c : ascii) (s : string) : bool :=
  match s with
  | String d _ => Ascii.eqb c d
  | EmptyString => false
  end.

Fixpoint ends_with_char (c : ascii) (s : string) : bool :=
  match s with
  | EmptyString => false
  | String d EmptyString => Ascii.eqb c d
  | String _ rest => ends_with_char c rest
  end.

(** [posixpath.join(a, b)]. *)
Definition path_join (a b : string) : string :=
  if starts_with_char "/" b then b
  else if String.eqb a "" || ends_with_char "/" a then a +:+ b
  else a +:+ "/" +:+ b.

(** [posixpath.join(a, b, c)]: the same step, folded from the left. *)
Definition path_join3 (a b c : string) : string := path_join (path_join a b) c.

(** [sep.join(l)]. *)
Definition str_join (sep : string) (l : list string) : string := String.concat sep l.

(** [x in l] for a list of strings. *)
Definition str_in (x : string) (l : list string) : bool := existsb (String.eqb x) l.

(** [l * n] for a list: [n <= 0] gives the empty list. *)
Definition list_mul {A} (l : list A) (n : Z) : list A :=
  concat (replicate (Z.to_nat n) l).

(** [l[:n]] and [l[n:]]: a negative [n] counts from the end, and every bound
    is clipped to the list. *)
Definition slice_index {A} (l : list A) (n : Z) : nat :=
  if n <? 0 then Z.to_nat (Z.of_nat (length l) + n) else Z.to_nat n.

Definition slice_to {A} (l : list A) (n : Z) : list A := take (slice_index l n) l.

Definition slice_from {A} (l : list A) (n : Z) : list A := drop (slice_index l n) l.

(** [' '.join(f"{i + 1}. {word}" for i, word in enumerate(l))]. *)
Definition numbered (l : list string) : string :=
  str_join " " (imap (fun i word => str_of_int (Z.of_nat i + 1) +:+ ". " +:+ word) l).

(** [str.isspace] on the ASCII range. *)
Definition is_space (c : ascii) : bool :=
  let n := nat_of_ascii c in
  ((9 <=? n) && (n <=? 13))%nat || ((28 <=? n) && (n <=? 32))%nat.

(** [s.replace(a, b)] for one-character [a] and [b]. *)
Fixpoint replace_char (a b : ascii) (s : string) : string :=
  match s with
  | EmptyString => EmptyString
  | String c rest => String (if Ascii.eqb c a then b else c) (replace_char a b rest)
  end.

(** [s.split()]: the maximal runs of non-space characters.  [cur] is the run
    being read, reversed. *)
Fixpoint split_ws_go (cur : list ascii) (s : string) : list string :=
  let flush := match cur with
               | [] => []
               | _ => [string_of_list_ascii (rev cur)]
               end in
  match s with
  | EmptyString => flush
  | String c rest =>
      if is_space c then flush ++ split_ws_go [] rest
      else split_ws_go (c :: cur) rest
  end.

Definition split_ws (s : string) : list string := split_ws_go [] s.

(** [s.strip()]. *)
Fixpoint lstrip (s : string) : string :=
  match s with
  | String c rest => if is_space c then lstrip rest else s
  | EmptyString => EmptyString
  end.

Definition str_rev (s : string) : string :=
  string_of_list_ascii (rev (list_ascii_of_string s)).

Definition strip (s : string) : string := str_rev (lstrip (str_rev (lstrip s))).

End Py.

(** ** [run_babilong.py]: the sweep over sequence lengths and tasks *)

Module Babilong.
Import Monad Monad.Notations Py.

(** What the script does to the outside world: [os.makedirs], writing a file,
    and [os.system]. *)
Inductive event : Type :=
| MakeDirs (path : string)
| WriteFile (path content : string)
| System (cmd : string).

(** The process state: the effects so far (oldest first) and what was
    printed. *)
Record world : Type := World {
  effects : list event;
  stdout : list string
}.

Definition emit (e : event) : M world exn unit :=
  modify (fun w => World (effects w ++ [e]) (stdout w)).

Definition print (line : string) : M world exn unit :=
  modify (fun w => World (effects w) (stdout w ++ [line])).

(** What the script is given from outside [run_babilong.py]: its own
    directory, the table [babilong.PROMPT_TEMPLATES] (reduced to the
    [stop_words] entry of each template), and [os.path.exists], which may
    depend on what the commands run so far have left on disk. *)
Record Env : Type := {
  BASE_DIR : string;
  PROMPT_TEMPLATES : string -> option (list string);
  path_exists : list event -> string -> bool
}.

(** The parsed command line ([define_cmd_arguments]). *)
Record Args : Type := {
  model_name : string;
  model_path : string;
  prompt_config : string;
  attn_type : string;
  block_size : Z;
  anchor_block_size : Z;
  seq_lengths : list Z;
  tasks : list string;
  pregen_data_dir : option string;
  num_nodes : Z;
  nproc_per_node : option Z;
  output_dir : string
}.

Definition TASKS : list string := ["qa1"; "qa2"; "qa3"; "qa4"; "qa5"].
Definition SPLIT_NAMES : list string := ["16k"; "32k"; "64k"; "128k"].

(** [f'{seq_length // 1024}k'] *)
Definition seq_length_repr (seq_length : Z) : string :=
  str_of_int (seq_length `div` 1024) +:+ "k".

(** ['star' in attn_type] and [attn_type != 'dense'] *)
Definition is_star (attn_type : string) : bool := str_contains "star" attn_type.
Definition not_dense (attn_type : string) : bool := negb (String.eqb attn_type "dense").

Section Model.
Context (E : Env).

Definition exists_now (path : string) : M world exn bool :=
  gets (fun w => path_exists E (effects w) path).

Definition submit_job (cmd log_dir filename : string) : M world exn unit :=
  _ <- emit (MakeDirs log_dir) ;;
  _ <- emit (WriteFile (path_join log_dir filename) cmd) ;;
  emit (System ("cd " +:+ BASE_DIR E +:+ "; " +:+ cmd)).

(** The skip test at the head of the loop over sequence lengths. *)
Definition skipped (attn_type : string) (block_size anchor_block_size seq_length : Z) : bool :=
  is_star attn_type && (seq_length <? block_size + anchor_block_size).

Definition skip_message (block_size anchor_block_size seq_length : Z) : string :=
  "block_size + anchor_block_size (" +:+ str_of_int (block_size + anchor_block_size)
  +:+ ") must be less than or equal to seq_length (" +:+ str_of_int seq_length
  +:+ "). Skipping...".

(** [min(nproc_per_node, seq_length // block_size)]: [min] of [None] and an
    integer is a [TypeError]. *)
Definition nproc_per_node_seq_len (nproc_per_node : option Z) (seq_length block_size : Z)
  : M world exn Z :=
  match floordiv seq_length block_size with
  | None => raise ZeroDivisionError
  | Some blocks =>
      match nproc_per_node with
      | None => raise TypeError
      | Some n => ret (Z.min n blocks)
      end
  end.

Definition inference_executor (attn_type : string) (num_nodes : Z) (nproc_per_node : option Z)
    (seq_length block_size : Z) : M world exn string :=
  if not_dense attn_type then
    n <- nproc_per_node_seq_len nproc_per_node seq_length block_size ;;
    ret ("torchrun --nnodes=" +:+ str_of_int num_nodes +:+ " --nproc_per_node=" +:+ str_of_int n)
  else ret "python".

Definition data_gen_cmd (data_dir task repr prompt_config : string) : string :=
  "python babilong/prepare_data.py "
  +:+ "--download_dir " +:+ path_join3 (BASE_DIR E) "dataset" "babilong" +:+ " "
  +:+ "--output_dir " +:+ data_dir +:+ " "
  +:+ "--tasks " +:+ task +:+ " "
  +:+ "--split_names " +:+ repr +:+ " "
  +:+ "--model_template_type " +:+ prompt_config +:+ " ".

Definition task_gen_cmd (executor model_path attn_type : string) (block_size anchor_block_size : Z)
    (task_data_file results_dir task stop_words : string) : string :=
  executor +:+ " run_star_attn_inference.py "
  +:+ "--model_path " +:+ model_path +:+ " "
  +:+ "--attn_type " +:+ attn_type +:+ " "
  +:+ "--block_size " +:+ str_of_int block_size +:+ " "
  +:+ "--anchor_block_size " +:+ str_of_int anchor_block_size +:+ " "
  +:+ "--tokens_to_generate 128 "
  +:+ "--input_path " +:+ task_data_file +:+ " "
  +:+ "--output_path " +:+ path_join results_dir task +:+ ".jsonl"
  +:+ "--stop_words " +:+ stop_words.

(** The pre-generated file of a task, when [pregen_data_dir] is set (and not
    the empty string, which Python reads as false). *)
Definition pregen_file (pregen_data_dir : option string) (repr task : string) : option string :=
  match pregen_data_dir with
  | Some d =>
      if String.eqb d "" then None
      else Some (path_join3 d repr (task +:+ "_" +:+ repr +:+ ".jsonl"))
  | None => None
  end.

(** The body of [for task in tasks]. *)
Definition evaluate_task (model_path attn_type : string) (block_size anchor_block_size : Z)
    (prompt_config executor repr results_dir log_dir data_dir : string)
    (pregen_data_dir : option string) (stop_words task : string) : M world exn unit :=
  let task_log_dir := path_join log_dir task in
  let generated := path_join data_dir (task +:+ "_" +:+ repr +:+ ".jsonl") in
  task_data_file <-
    match pregen_file pregen_data_dir repr task with
    | None =>
        _ <- submit_job (data_gen_cmd data_dir task repr prompt_config)
                        task_log_dir "data_generation.sh" ;;
        ret generated
    | Some f =>
        found <- exists_now f ;;
        if found then ret f
        else
          _ <- submit_job (data_gen_cmd data_dir task repr prompt_config)
                          task_log_dir "data_generation.sh" ;;
          ret generated
    end ;;
  submit_job
    (task_gen_cmd executor model_path attn_type block_size anchor_block_size
                  task_data_file results_dir task stop_words)
    task_log_dir "generate_predictions.sh".

(** The body of [for seq_length in seq_lengths]. *)
Definition schedule_seq_length (model_path attn_type : string) (block_size anchor_block_size : Z)
    (prompt_config : string) (tasks : list string) (nproc_per_node : option Z)
    (output_dir : string) (num_nodes : Z) (pregen_data_dir : option string)
    (stop_words : string) (seq_length : Z) : M world exn unit :=
  let repr := seq_length_repr seq_length in
  if skipped attn_type block_size anchor_block_size seq_length then
    print (skip_message block_size anchor_block_size seq_length)
  else
    executor <- inference_executor attn_type num_nodes nproc_per_node seq_length block_size ;;
    let results_dir := path_join output_dir repr in
    let log_dir := path_join results_dir "logs" in
    let data_dir := path_join results_dir "data" in
    _ <- emit (MakeDirs log_dir) ;;
    _ <- emit (MakeDirs data_dir) ;;
    for_each tasks
      (evaluate_task model_path attn_type block_size anchor_block_size prompt_config
                     executor repr results_dir log_dir data_dir pregen_data_dir stop_words).

Definition main (model_path attn_type : string) (block_size anchor_block_size : Z)
    (prompt_config : string) (seq_lengths : list Z) (tasks : list string)
    (nproc_per_node : option Z) (output_dir : string) (num_nodes : Z)
    (pregen_data_dir : option string) : M world exn unit :=
  _ <- (if is_star attn_type && (block_size <? anchor_block_size) then
          raise (AssertionError
                   ("block_size (" +:+ str_of_int block_size
                    +:+ ") must be greater than anchor_block_size ("
                    +:+ str_of_int anchor_block_size +:+ ")"))
        else ret tt) ;;
  let pregen := option_map (path_join3 (BASE_DIR E) "dataset") pregen_data_dir in
  stop_words <-
    match PROMPT_TEMPLATES E prompt_config with
    | Some ws => ret (str_join "," ws)
    | None => raise (KeyError prompt_config)
    end ;;
  for_each seq_lengths
    (schedule_seq_length model_path attn_type block_size anchor_block_size prompt_config
                         tasks nproc_per_node output_dir num_nodes pregen stop_words).

(** [f'{n}' if n < 1024 else f'{n // 1024}k'] *)
Definition size_repr (n : Z) : string :=
  if n <? 1024 then str_of_int n else str_of_int (n `div` 1024) +:+ "k".

Definition model_name_suffix (a : Args) : string :=
  if is_star (attn_type a) then
    let anchor := if 0 <? anchor_block_size a then anchor_block_size a else block_size a in
    "_b" +:+ size_repr (block_size a) +:+ "a" +:+ size_repr anchor
  else "".

Definition py_assert (cond : bool) (msg : string) : M world exn unit :=
  if cond then ret tt else raise (AssertionError msg).

(** The [if __name__ == '__main__':] block. *)
Definition script (a : Args) : M world exn unit :=
  _ <- for_each (seq_lengths a)
         (fun seq_length =>
            py_assert (str_in (seq_length_repr seq_length) SPLIT_NAMES)
                   "seq_length must be one of ['16k', '32k', '64k', '128k']") ;;
  _ <- (if is_star (attn_type a)
        then py_assert (0 <? block_size a) "block_size must be greater than 0"
        else ret tt) ;;
  _ <- (if not_dense (attn_type a) then
          _ <- py_assert (match nproc_per_node a with Some n => 0 <? n | None => false end)
                      "nproc_per_node must be greater than 0" ;;
          py_assert (0 <? num_nodes a) "num_nodes must be greater than 0"
        else ret tt) ;;
  found <- exists_now (model_path a) ;;
  _ <- (if found then ret tt
        else raise (FileNotFoundError (model_path a +:+ " not found"))) ;;
  let out := path_join (output_dir a)
               (model_name a +:+ "_" +:+ attn_type a +:+ model_name_suffix a) in
  main (model_path a) (attn_type a) (block_size a) (anchor_block_size a) (prompt_config a)
       (seq_lengths a) (tasks a) (nproc_per_node a) out (num_nodes a) (pregen_data_dir a).

End Model.

(** *** A concrete environment and concrete command lines

    The script lives in [/opt/Star-Attention]; one template, [llama3], is
    known; the only path that exists is the model's. *)

Definition sample_env : Env := {|
  BASE_DIR := "/opt/Star-Attention";
  PROMPT_TEMPLATES := fun config =>
    if String.eqb config "llama3" then Some ["<|eot_id|>"; "<|end_of_text|>"] else None;
  path_exists := fun _ path => String.eqb path "/models/llama3"
|}.

Definition empty_world : world := World [] [].

(** [-n llama -p /models/llama3 -pc llama3 -a <attn> -bs <bs> -as <abs>
     -l <seq_length> -t qa1 -np 8], every other flag at its default. *)
Definition sample_args (attn : string) (bs abs : Z) (seq_length : Z) : Args := {|
  model_name := "llama";
  model_path := "/models/llama3";
  prompt_config := "llama3";
  attn_type := attn;
  block_size := bs;
  anchor_block_size := abs;
  seq_lengths := [seq_length];
  tasks := ["qa1"];
  pregen_data_dir := None;
  num_nodes := 1;
  nproc_per_node := Some 8;
  output_dir := "/opt/Star-Attention/results"
|}.

(** The spec's scenario: star attention, blocks of 4096 with anchors of 8192. *)
Definition anchor_above_block : Args := sample_args "star" 4096 8192 16384.

(** Ring attention with the default block sizes ([-1]). *)
Definition ring_defaults : Args := sample_args "ring" (-1) (-1) 16384.

(** Dense attention with block sizes that add up beyond the sequence. *)
Definition dense_wide_blocks : Args := sample_args "dense" 16384 16384 16384.

(** Star attention, blocks of 4096 with anchors of 4096. *)
Definition star_4k : Args := sample_args "star" 4096 4096 16384.

(** Star attention, a block one token longer than the sequence, the default
    anchor ([-1]). *)
Definition star_block_beyond_length : Args := sample_args "star" 16385 (-1) 16384.

(** *** Reading a run

    The notions the statements about the sweep are written with. *)

Section Reading.
Context (E : Env).

(** The three effects of one submitted job. *)
Definition job_events (cmd log_dir filename : string) : list event :=
  [MakeDirs log_dir; WriteFile (path_join log_dir filename) cmd;
   System ("cd " +:+ BASE_DIR E +:+ "; " +:+ cmd)].

(** A guard: a computation that leaves the world alone and passes exactly
    when [ok] holds. *)
Definition guard (m : M world exn unit) (ok : bool) (w : world) : Prop :=
  if ok then m w = (inr tt, w) else exists e, m w = (inl e, w).

(** The conditions the script rejects. *)
Definition invalid (a : Args) (w : world) : Prop :=
  (exists s, In s (seq_lengths a) /\ str_in (seq_length_repr s) SPLIT_NAMES = false)
  \/ (is_star (attn_type a) = true /\ block_size a <= 0)
  \/ (not_dense (attn_type a) = true
      /\ (nproc_per_node a = None
          \/ (exists n, nproc_per_node a = Some n /\ n <= 0)
          \/ num_nodes a <= 0))
  \/ path_exists E (effects w) (model_path a) = false
  \/ (is_star (attn_type a) = true /\ block_size a < anchor_block_size a).

(** What was printed has no bearing on what a computation does: from two
    worlds with the same effects it ends the same way, with the same effects. *)
Definition stable {A} (m : M world exn A) : Prop :=
  forall w1 w2, effects w1 = effects w2 ->
    fst (m w1) = fst (m w2) /\ effects (snd (m w1)) = effects (snd (m w2)).

End Reading.

(** *** Reading a whole sweep *)

Section Sweep.
Context (E : Env).

(** The configuration the validation of the script lets through. *)
Definition valid (a : Args) (w : world) : Prop :=
  (forall s, In s (seq_lengths a) -> str_in (seq_length_repr s) SPLIT_NAMES = true)
  /\ (is_star (attn_type a) = true -> 0 < block_size a)
  /\ (not_dense (attn_type a) = true ->
      exists n, nproc_per_node a = Some n /\ 0 < n /\ 0 < num_nodes a)
  /\ path_exists E (effects w) (model_path a) = true
  /\ (is_star (attn_type a) = true -> anchor_block_size a <= block_size a).

(** [w'] is [w] with more effects and more output after it. *)
Definition extends (w w' : world) : Prop :=
  (exists l, effects w' = effects w ++ l) /\ (exists l, stdout w' = stdout w ++ l).

(** The launcher of the inference job of one sequence length. *)
Definition executor_of (attn_type : string) (num_nodes : Z) (nproc_per_node : option Z)
    (seq_length block_size : Z) : string :=
  if not_dense attn_type then
    match nproc_per_node with
    | Some n => "torchrun --nnodes=" +:+ str_of_int num_nodes +:+ " --nproc_per_node="
                +:+ str_of_int (Z.min n (seq_length `div` block_size))
    | None => ""
    end
  else "python".

(** The effects of one task when no data was generated beforehand: the
    data-generation job, then the inference job on the file it is to
    produce. *)
Definition fresh_task_events (model_path attn_type : string) (block_size anchor_block_size : Z)
    (prompt_config executor repr results_dir log_dir data_dir stop_words task : string)
  : list event :=
  job_events E (data_gen_cmd E data_dir task repr prompt_config)
             (path_join log_dir task) "data_generation.sh"
  ++ job_events E (task_gen_cmd executor model_path attn_type block_size anchor_block_size
                                (path_join data_dir (task +:+ "_" +:+ repr +:+ ".jsonl"))
                                results_dir task stop_words)
                (path_join log_dir task) "generate_predictions.sh".

(** The effects of one sequence length when no data was generated
    beforehand: none when the length is skipped, else the two directories
    and the jobs of every task. *)
Definition fresh_length_events (model_path attn_type : string)
    (block_size anchor_block_size : Z) (prompt_config : string) (tasks : list string)
    (nproc_per_node : option Z) (output_dir : string) (num_nodes : Z) (stop_words : string)
    (seq_length : Z) : list event :=
  if skipped attn_type block_size anchor_block_size seq_length then []
  else
    let repr := seq_length_repr seq_length in
    let results_dir := path_join output_dir repr in
    let log_dir := path_join results_dir "logs" in
    let data_dir := path_join results_dir "data" in
    [MakeDirs log_dir; MakeDirs data_dir]
    ++ concat (map (fresh_task_events model_path attn_type block_size anchor_block_size
                      prompt_config
                      (executor_of attn_type num_nodes nproc_per_node seq_length block_size)
                      repr results_dir log_dir data_dir stop_words) tasks).

(** The commands handed to the shell among some effects. *)
Definition is_system (e : event) : bool :=
  match e with System _ => true | _ => false end.

Definition commands (l : list event) : list event := List.filter is_system l.

(** Effects in which every command handed to the shell comes right after
    the file that records it, word for word, and every such file is followed
    by its command. *)
Inductive audited : list event -> Prop :=
| audited_nil : audited []
| audited_dir path l : audited l -> audited (MakeDirs path :: l)
| audited_job path cmd l :
    audited l ->
    audited (WriteFile path cmd :: System ("cd " +:+ BASE_DIR E +:+ "; " +:+ cmd) :: l).

(** [w'] is [w] with effects added that satisfy [Q]. *)
Definition adds (Q : list event -> Prop) (w w' : world) : Prop :=
  exists l, effects w' = effects w ++ l /\ Q l.

(** [path] is [dir] with something after it. *)
Definition under (dir path : string) : Prop := exists rest, path = dir +:+ rest.

(** An effect on the file system that stays under [dir]. *)
Definition stays_under (dir : string) (e : event) : Prop :=
  match e with
  | MakeDirs path => under dir path
  | WriteFile path _ => under dir path
  | System _ => True
  end.

End Sweep.

End Babilong.

(** ** [common_words_extraction.py]: examples that fit a token budget *)

Module CommonWords.
Import Monad Monad.Notations Py.

(** The flags the generator reads.  The flags that only name files
    ([save_dir], [save_name], [subset], [tokenizer_path], [tokenizer_type])
    are left out: the tokenizer they select is part of [Env]. *)
Record Args : Type := {
  max_seq_length : Z;
  tokens_to_generate : Z;
  num_samples : Z;
  random_seed : Z;
  context_template : string;
  query_template : string;
  remove_newline_tab : bool;
  freq_cw : Z;
  freq_ucw : Z;
  num_cw : Z
}.

(** What the script takes from its libraries.
    - [rng] is the state of the module-level generator of [random];
      [seed n] is the state [random.seed(n)] leaves; [sample population k]
      is [random.sample], [None] standing for its [ValueError], which leaves
      the generator as it was.
    - [seeded_shuffle n l] is the list [random.Random(n).shuffle(l)] leaves
      in [l]: a fresh generator each time, so a function of [n] and [l].
    - [text_to_tokens] is [TOKENIZER.text_to_tokens].
    - [format_context template c] is [template.format(context=c)].
    - [nouns], [adjs] and [verbs] are the word lists of [wonderwords]. *)
Record Env : Type := {
  rng : Type;
  seed : Z -> rng;
  sample : list string -> Z -> rng -> option (list string * rng);
  seeded_shuffle : Z -> list string -> list string;
  text_to_tokens : string -> list Z;
  format_context : string -> string -> string;
  nouns : list string;
  adjs : list string;
  verbs : list string
}.

(** A line of standard output: the progress line of the calibration loop,
    with its three numbers, and the closing ['num_words:'] line. *)
Inductive line : Type :=
| Progress (max_length current_length num_words : Z)
| NumWords (num_words : Z).

(** A loop either raises a Python exception or is cut off by the model's
    fuel. *)
Inductive failure : Type :=
| Exception (e : exn)
| OutOfFuel.

(** One record of the dataset. *)
Record Example : Type := {
  index : Z;
  input_context : string;
  input_query : string;
  outputs : list string;
  length_ : Z
}.

(** Comparison of [str] values, as [sorted] uses it. *)
Definition str_le (s1 s2 : string) : Prop := String.leb s1 s2 = true.

#[global] Instance str_le_dec : RelDecision str_le.
Proof. intros s1 s2. unfold str_le. apply _. Defined.

(** [sorted(l)] *)
Definition sorted (l : list string) : list string := merge_sort str_le l.

Definition newline : string := String (ascii_of_nat 10) EmptyString.
Definition tab : ascii := ascii_of_nat 9.

(** [' '.join(s.replace('\n', ' ').replace('\t', ' ').strip().split())] *)
Definition collapse_whitespace (s : string) : string :=
  str_join " " (split_ws (strip (replace_char tab " " (replace_char (ascii_of_nat 10) " " s)))).

(** The same command line with other values of [--freq_cw] and
    [--freq_ucw]. *)
Definition with_freqs (a : Args) (cw ucw : Z) : Args := {|
  max_seq_length := max_seq_length a;
  tokens_to_generate := tokens_to_generate a;
  num_samples := num_samples a;
  random_seed := random_seed a;
  context_template := context_template a;
  query_template := query_template a;
  remove_newline_tab := remove_newline_tab a;
  freq_cw := cw;
  freq_ucw := ucw;
  num_cw := num_cw a
|}.

(** [if used_words > incremental: used_words -= incremental] *)
Definition shrink (incremental used_words : Z) : Z :=
  if incremental <? used_words then used_words - incremental else used_words.

Section Model.
Context (E : Env).

Record state : Type := State {
  random : rng E;
  printed : list line
}.

Definition G (A : Type) : Type := M state failure A.

Definition print (l : line) : G unit :=
  modify (fun st => State (random st) (printed st ++ [l])).

(** [random.sample(population, k)] on the module-level generator. *)
Definition random_sample (population : list string) (k : Z) : G (list string) :=
  fun st =>
    match sample E population k (random st) with
    | Some (chosen, r) => (inr chosen, State r (printed st))
    | None => (inl (Exception (ValueError "Sample larger than population or is negative")), st)
    end.

(** [len(TOKENIZER.text_to_tokens(text))] *)
Definition token_count (text : string) : Z := Z.of_nat (length (text_to_tokens E text)).

(** The module-level [words]: the three lists joined, made a set, sorted,
    shuffled with a generator of its own.  [enumeration] is the order in
    which [list(set(...))] happens to list the set. *)
Definition corpus : list string := nouns E ++ adjs E ++ verbs E.

Definition build_words (random_seed : Z) (enumeration : list string) : list string :=
  seeded_shuffle E random_seed (sorted enumeration).

Context (a : Args) (words : list string).

Definition get_example (num_words common_repeats uncommon_repeats common_nums : Z)
  : G (string * list string) :=
  word_list_full <- random_sample words num_words ;;
  let common := slice_to word_list_full common_nums in
  let uncommon := slice_from word_list_full common_nums in
  let word_list := seeded_shuffle E (random_seed a)
                     (list_mul common common_repeats ++ list_mul uncommon uncommon_repeats) in
  ret (numbered word_list, common).

Definition generate_input_output (num_words : Z) : G (string * string * list string) :=
  examples <-
    (if max_seq_length a <? 4096 then
       example <- get_example 20 3 1 (num_cw a) ;;
       actual <- get_example num_words 6 1 (num_cw a) ;;
       ret (example, actual)
     else
       example <- get_example 40 10 3 (num_cw a) ;;
       actual <- get_example num_words (freq_cw a) (freq_ucw a) (num_cw a) ;;
       ret (example, actual)) ;;
  let '(context_example, answer_example, (context, answer)) := examples in
  let input_example := format_context E (context_template a) context_example
                       +:+ query_template a +:+ numbered answer_example in
  let input_context := format_context E (context_template a) context in
  ret (input_example +:+ newline +:+ input_context, query_template a, answer).

Section Sys_word_pair_random.
Context (max_seq_length : Z) (incremental : Z).

(** The search for the number of words: [while total_tokens +
    tokens_to_generate < max_seq_length: ...], entered with the current
    [num_words] and [total_tokens]. *)
Fixpoint calibrate (fuel : nat) (num_words total_tokens : Z) : G Z :=
  if total_tokens + tokens_to_generate a <? max_seq_length then
    match fuel with
    | O => raise OutOfFuel
    | S fuel' =>
        generated <- generate_input_output num_words ;;
        let '(context, query, answer) := generated in
        let total_tokens := token_count (context +:+ query +:+ " " +:+ numbered answer) in
        _ <- print (Progress max_seq_length (total_tokens + tokens_to_generate a) num_words) ;;
        if max_seq_length <? total_tokens + tokens_to_generate a then
          ret (num_words - incremental)
        else
          let num_words := num_words + incremental in
          if Z.of_nat (length words) <? num_words then ret (Z.of_nat (length words))
          else calibrate fuel' num_words total_tokens
    end
  else ret num_words.

(** The body of [try:] in the per-sample loop. *)
Definition attempt (used_words : Z) : G (string * string * list string * Z) :=
  generated <- generate_input_output used_words ;;
  let '(context, query, answer) := generated in
  let length := token_count (context +:+ query) + tokens_to_generate a in
  if length <=? max_seq_length then ret (context, query, answer, length)
  else raise (Exception (AssertionError (str_of_int length +:+ " exceeds max_seq_length."))).

(** [while True: try: ...; break; except: ...]: any exception is caught and
    the body is tried again. *)
Fixpoint sample_loop (fuel : nat) (used_words : Z) : G (string * string * list string * Z) :=
  match fuel with
  | O => raise OutOfFuel
  | S fuel' =>
      fun st =>
        match attempt used_words st with
        | (inl (Exception _), st') => sample_loop fuel' (shrink incremental used_words) st'
        | result => result
        end
  end.

(** The body of [for index in tqdm(range(num_samples))]. *)
Definition generate_sample (fuel : nat) (num_words index : Z) : G Example :=
  sampled <- sample_loop fuel num_words ;;
  let '(context, query, answer, length) := sampled in
  let context := if remove_newline_tab a then collapse_whitespace context else context in
  let query := if remove_newline_tab a then collapse_whitespace query else query in
  ret {| index := index; input_context := context; input_query := query;
         outputs := answer; length_ := length |}.

(** [for index in range(num_samples)], collecting [write_jsons]. *)
Fixpoint generate_samples (fuel : nat) (num_words : Z) (indices : list Z) : G (list Example) :=
  match indices with
  | [] => ret []
  | index :: rest =>
      r <- generate_sample fuel num_words index ;;
      rs <- generate_samples fuel num_words rest ;;
      ret (r :: rs)
  end.

(** [range(n)] *)
Definition range (n : Z) : list Z := map Z.of_nat (seq 0 (Z.to_nat n)).

(** [fuel] bounds the iterations of each [while] loop. *)
Definition sys_word_pair_random (fuel : nat) (num_samples : Z) : G (list Example) :=
  num_words <- calibrate fuel incremental 0 ;;
  _ <- print (NumWords num_words) ;;
  generate_samples fuel num_words (range num_samples).

End Sys_word_pair_random.

(** [main], up to the call of [write_jsonl]: [incremental] keeps its
    default, 10. *)
Definition main (fuel : nat) : G (list Example) :=
  sys_word_pair_random (max_seq_length a) 10 fuel (num_samples a).

End Model.

Arguments State {E} random printed.
Arguments random {E} s.
Arguments printed {E} s.

(** One run of the script: the generator is seeded, the word pool is built
    from the order in which the set of words is listed, and [main] runs. *)
Definition run (E : Env) (a : Args) (enumeration : list string) (fuel : nat)
  : (failure + list Example) * state E :=
  main E a (build_words E (random_seed a) enumeration) fuel
       (State (seed E (random_seed a)) []).

(** *** A concrete library and concrete command lines

    The generator state is a counter; [sample] takes the first [k] words of
    the population rotated by the counter; the seeded shuffle reverses the
    list; the tokenizer yields one token per character; a template is
    formatted by putting the context in place of its first [{context}]. *)

Definition char_tokens (s : string) : list Z :=
  map (fun c => Z.of_nat (nat_of_ascii c)) (list_ascii_of_string s).

Fixpoint subst_context (template c : string) : string :=
  if String.prefix "{context}" template
  then c +:+ String.substring 9 (String.length template - 9) template
  else match template with
       | EmptyString => EmptyString
       | String x rest => String x (subst_context rest c)
       end.

Definition rotating_sample (population : list string) (k : Z) (r : nat)
  : option (list string * nat) :=
  if (k <? 0) || (Z.of_nat (length population) <? k) then None
  else Some (take (Z.to_nat k) (rotate r population), S r).

Definition word_list (prefix : string) (n : nat) : list string :=
  map (fun i => prefix +:+ pretty i) (seq 0 n).

Definition sample_env : Env := {|
  rng := nat;
  seed := Z.to_nat;
  sample := rotating_sample;
  seeded_shuffle := fun _ l => rev l;
  text_to_tokens := char_tokens;
  format_context := subst_context;
  nouns := word_list "noun" 12;
  adjs := word_list "adj" 8 ++ ["noun3"];
  verbs := word_list "verb" 6
|}.

(** The words as a set lists them: here in order of first occurrence. *)
Definition sample_enumeration : list string := remove_dups (corpus sample_env).

Definition sample_words : list string := build_words sample_env 42 sample_enumeration.

(** [--max_seq_length m --tokens_to_generate g --num_samples 2 --random_seed 42
     --num_cw 3], the frequencies at their defaults. *)
Definition sample_args (m g : Z) : Args := {|
  max_seq_length := m;
  tokens_to_generate := g;
  num_samples := 2;
  random_seed := 42;
  context_template := "Words: {context}" +:+ newline;
  query_template := "What are the 3 most common words?";
  remove_newline_tab := false;
  freq_cw := 30;
  freq_ucw := 3;
  num_cw := 3
|}.

Definition initial_state : state sample_env := State (seed sample_env 42) [].

(** *** Reading a run

    The notions the statements about the generator are written with. *)

Section Reading.
Context (E : Env) (a : Args) (words : list string) (max_len incremental : Z).

(** How an example is put together from one draw of [random.sample]. *)
Definition drawn (st st' : state E) (num_words common_repeats uncommon_repeats : Z)
    (context : string) (common : list string) : Prop :=
  exists full,
    sample E words num_words (random st) = Some (full, random st')
    /\ printed st' = printed st
    /\ common = slice_to full (num_cw a)
    /\ context = numbered (seeded_shuffle E (random_seed a)
                    (list_mul common common_repeats
                     ++ list_mul (slice_from full (num_cw a)) uncommon_repeats)).

(** The shaping of the regime: the few-shot example and the actual list. *)
Definition regime : (Z * Z * Z) * (Z * Z) :=
  if max_seq_length a <? 4096 then ((20, 3, 1), (6, 1))
  else ((40, 10, 3), (freq_cw a, freq_ucw a)).

(** The item count and the state before attempt number [n] (from 0) of the
    per-sample loop, every earlier attempt having failed. *)
Fixpoint retry_state (n : nat) (used : Z) (st : state E) : Z * state E :=
  match n with
  | O => (used, st)
  | S n' => retry_state n' (shrink incremental used)
                        (snd (attempt E a words max_len used st))
  end.

Definition attempt_at (n : nat) (used : Z) (st : state E) :=
  attempt E a words max_len (fst (retry_state n used st)) (snd (retry_state n used st)).

Definition fails {A} (r : (failure + A) * state E) : Prop :=
  exists e, fst r = inl (Exception e).

(** [context] and [query] as the record keeps them. *)
Definition kept (text : string) : string :=
  if remove_newline_tab a then collapse_whitespace text else text.

(** A record of the dataset, read against the attempt it was made from. *)
Definition made_from (r : Example) (used : Z) (s s' : state E) (context query : string)
  : Prop :=
  attempt E a words max_len used s = (inr (context, query, outputs r, length_ r), s')
  /\ input_context r = kept context
  /\ input_query r = kept query.

(** A trial of the calibration search: the number of words it was built
    with and the length the progress line reports for it (tokens plus the
    reserve). *)
Definition trial_line (t : Z * Z) : line := Progress max_len (snd t) (fst t).

Definition measured (t : Z * Z) : Prop :=
  exists s s' context query answer,
    generate_input_output E a words (fst t) s = (inr (context, query, answer), s')
    /\ snd t = token_count E (context +:+ query +:+ " " +:+ numbered answer)
               + tokens_to_generate a.

(** The ways the search goes from [num_words] and [total_tokens], through
    its trials, to the count it returns. *)
Inductive search : Z -> Z -> list (Z * Z) -> Z -> Prop :=
| search_done num_words total :
    ~ total + tokens_to_generate a < max_len ->
    search num_words total [] num_words
| search_overflow num_words total cur :
    total + tokens_to_generate a < max_len -> max_len < cur ->
    search num_words total [(num_words, cur)] (num_words - incremental)
| search_cap num_words total cur :
    total + tokens_to_generate a < max_len -> cur <= max_len ->
    Z.of_nat (length words) < num_words + incremental ->
    search num_words total [(num_words, cur)] (Z.of_nat (length words))
| search_grow num_words total cur trials k :
    total + tokens_to_generate a < max_len -> cur <= max_len ->
    num_words + incremental <= Z.of_nat (length words) ->
    search (num_words + incremental) (cur - tokens_to_generate a) trials k ->
    search num_words total ((num_words, cur) :: trials) k.

End Reading.

Arguments fails {E A} r.

(** *** Reading the library and the records *)

(** [random.sample] refuses to draw more words than the population has. *)
Definition refuses_large_draws (E : Env) : Prop :=
  forall population k r,
    Z.of_nat (length population) < k -> sample E population k r = None.

(** The seeded shuffle only reorders the list. *)
Definition shuffle_reorders (E : Env) : Prop :=
  forall n l, seeded_shuffle E n l ≡ₚ l.

(** A word: not empty, and free of white space. *)
Definition is_word (w : string) : Prop :=
  w <> "" /\ Forall (fun c => is_space c = false) (list_ascii_of_string w).

(** A text made of words with one space between any two. *)
Definition tidy (s : string) : Prop :=
  exists ws, s = str_join " " ws /\ Forall is_word ws.

(** A text whose only white space is the plain space. *)
Definition only_plain_spaces (s : string) : Prop :=
  Forall (fun c => is_space c = true -> c = " "%char) (list_ascii_of_string s).

(** [sample_args m g] with [--remove_newline_tab]. *)
Definition collapsed_args (m g : Z) : Args := {|
  max_seq_length := m;
  tokens_to_generate := g;
  num_samples := 2;
  random_seed := 42;
  context_template := context_template (sample_args m g);
  query_template := query_template (sample_args m g);
  remove_newline_tab := true;
  freq_cw := 30;
  freq_ucw := 3;
  num_cw := 3
|}.

(** A pool of five words, fewer than a few-shot example needs. *)
Definition small_pool : list string := take 5 sample_words.

End CommonWords.

(** * Theorems *)

(** ** Running a computation step by step *)

Module MonadFacts.
Import Monad.

Lemma bind_inr {S F A B} (m : M S F A) (k : A -> M S F B) s x s' :
  m s = (inr x, s') -> bind m k s = k x s'.
Proof. intros H. unfold bind. now rewrite H. Qed.

Lemma bind_inl {S F A B} (m : M S F A) (k : A -> M S F B) s f s' :
  m s = (inl f, s') -> bind m k s = (inl f, s').
Proof. intros H. unfold bind. now rewrite H. Qed.

Lemma bind_ok {S F A B} (m : M S F A) (k : A -> M S F B) s b s' :
  bind m k s = (inr b, s') ->
  exists a s1, m s = (inr a, s1) /\ k a s1 = (inr b, s').
Proof.
  unfold bind. destruct (m s) as [[f|a] s1]; [discriminate|].
  intros H. now exists a, s1.
Qed.

Lemma bind_fail {S F A B} (m : M S F A) (k : A -> M S F B) s f s' :
  bind m k s = (inl f, s') ->
  m s = (inl f, s') \/ exists a s1, m s = (inr a, s1) /\ k a s1 = (inl f, s').
Proof.
  unfold bind. destruct (m s) as [[f1|a] s1]; intros H.
  - injection H as -> ->. now left.
  - right. now exists a, s1.
Qed.

Lemma bind_ext {S F A B} (m1 m2 : M S F A) (k1 k2 : A -> M S F B) s :
  m1 s = m2 s -> (forall x s', k1 x s' = k2 x s') -> bind m1 k1 s = bind m2 k2 s.
Proof.
  intros Hm Hk. unfold bind. rewrite Hm. destruct (m2 s) as [[f|x] s']; auto.
Qed.

End MonadFacts.

(** ** The built-ins on small inputs *)

Module PyFacts.
Import Py.

Example floordiv_rounds_down :
  floordiv 16384 4096 = Some 4 /\ floordiv 16384 16385 = Some 0
  /\ floordiv 16384 (-1) = Some (-16384) /\ floordiv (-7) 2 = Some (-4)
  /\ floordiv 7 0 = None.
Proof. repeat split. Qed.

Example str_contains_finds_substrings :
  str_contains "star" "star" = true /\ str_contains "star" "my_star_v2" = true
  /\ str_contains "star" "ring" = false /\ str_contains "star" "sta" = false.
Proof. repeat split. Qed.

Example path_join_follows_posixpath :
  path_join "a" "b" = "a/b" /\ path_join "a/" "b" = "a/b" /\ path_join "" "b" = "b"
  /\ path_join "a" "/b" = "/b" /\ path_join3 "/x" "dataset" "d" = "/x/dataset/d".
Proof. repeat split. Qed.

Example slices_clip_and_count_from_the_end :
  slice_to [1; 2; 3; 4] 2 = [1; 2] /\ slice_from [1; 2; 3; 4] 2 = [3; 4]
  /\ slice_to [1; 2; 3; 4] 9 = [1; 2; 3; 4] /\ slice_from [1; 2; 3; 4] 9 = []
  /\ slice_to [1; 2; 3; 4] (-1) = [1; 2; 3] /\ slice_from [1; 2; 3; 4] (-1) = [4]
  /\ slice_to [1; 2; 3; 4] (-9) = [] /\ slice_from [1; 2; 3; 4] (-9) = [1; 2; 3; 4].
Proof. repeat split. Qed.

Example list_mul_repeats :
  list_mul [1; 2] 3 = [1; 2; 1; 2; 1; 2] /\ list_mul [1; 2] 0 = []
  /\ list_mul [1; 2] (-2) = [].
Proof. repeat split. Qed.

Example numbered_counts_from_one : numbered ["cat"; "dog"; "cat"] = "1. cat 2. dog 3. cat".
Proof. reflexivity. Qed.

Example split_ws_drops_every_blank :
  split_ws "  ab  c d " = ["ab"; "c"; "d"] /\ strip "  ab c  " = "ab c"
  /\ CommonWords.collapse_whitespace ("  ab" +:+ CommonWords.newline +:+ " c  ") = "ab c".
Proof. repeat split. Qed.

Example seq_length_repr_counts_kibitokens :
  Babilong.seq_length_repr 16384 = "16k" /\ Babilong.seq_length_repr 131072 = "128k"
  /\ Babilong.seq_length_repr 16385 = "16k" /\ Babilong.seq_length_repr 1000 = "0k".
Proof. repeat split. Qed.

End PyFacts.

(** ** The sweep of [run_babilong.py] *)

Module BabilongFacts.
Import Monad Monad.Notations Py Babilong MonadFacts.

Section Proofs.
Context (E : Env).

Local Abbreviation job_events := (Babilong.job_events E).
Local Abbreviation invalid := (Babilong.invalid E).

Lemma append_assoc (a b c : string) : (a +:+ b) +:+ c = a +:+ b +:+ c.
Proof.
  induction a as [|x a IH]; [reflexivity|].
  change (String x ((a +:+ b) +:+ c) = String x (a +:+ b +:+ c)). now rewrite IH.
Qed.

Lemma submit_job_run cmd log_dir filename w :
  submit_job E cmd log_dir filename w
  = (inr tt, World (effects w ++ job_events cmd log_dir filename) (stdout w)).
Proof.
  unfold submit_job, job_events, bind, emit, modify. cbn.
  now rewrite <- !app_assoc.
Qed.

(** One task always goes through: an optional data-generation job, then the
    inference job on the file that job is to produce or on the one found. *)
Lemma evaluate_task_run model_path attn (bs abs : Z) config executor repr results_dir
    log_dir data_dir pregen stop_words task w :
  exists gen input,
    evaluate_task E model_path attn bs abs config executor repr results_dir log_dir
                  data_dir pregen stop_words task w
    = (inr tt,
       World (effects w ++ gen
              ++ job_events (task_gen_cmd executor model_path attn bs abs input
                                          results_dir task stop_words)
                            (path_join log_dir task) "generate_predictions.sh")
             (stdout w))
    /\ (gen = [] \/
        gen = job_events (data_gen_cmd E data_dir task repr config)
                         (path_join log_dir task) "data_generation.sh").
Proof.
  unfold evaluate_task.
  destruct (pregen_file pregen repr task) as [f|] eqn:Hf.
  - destruct (path_exists E (effects w) f) eqn:Hex.
    + exists [], f. split; [|now left].
      cbv [bind exists_now gets ret]. rewrite Hex, submit_job_run.
      now rewrite app_nil_l.
    + eexists _, _. split; [|now right].
      cbv [bind exists_now gets ret]. rewrite Hex, !submit_job_run.
      cbn [effects stdout]. now rewrite <- app_assoc.
  - eexists _, _. split; [|now right].
    cbv [bind ret]. rewrite !submit_job_run.
    cbn [effects stdout]. now rewrite <- app_assoc.
Qed.

Lemma guard_assert cond msg w : guard (py_assert cond msg) cond w.
Proof. destruct cond; unfold guard, py_assert; eauto. Qed.

Lemma guard_ret w : guard (ret tt) true w.
Proof. reflexivity. Qed.

Lemma guard_seq m1 m2 b1 b2 w :
  guard m1 b1 w -> guard m2 b2 w -> guard (bind m1 (fun _ => m2)) (b1 && b2) w.
Proof.
  unfold guard. destruct b1; cbn [andb]; intros H1 H2.
  - destruct b2; [|destruct H2 as [e H2]; exists e];
      now rewrite (bind_inr _ _ _ _ _ H1).
  - destruct H1 as [e H1]. exists e. now apply bind_inl.
Qed.

Lemma guard_for_each {A} (check : A -> M world exn unit) (ok : A -> bool) l w :
  (forall x, guard (check x) (ok x) w) -> guard (for_each l check) (forallb ok l) w.
Proof.
  intros H. induction l as [|x l IH]; [reflexivity|].
  cbn [for_each forallb]. now apply guard_seq.
Qed.

(** After a guard, the rest runs in the same world -- or not at all. *)
Lemma guard_then {B} m ok (k : unit -> M world exn B) w :
  guard m ok w ->
  (ok = true -> exists e, k tt w = (inl e, w)) ->
  exists e, bind m k w = (inl e, w).
Proof.
  unfold guard. destruct ok; intros H Hk.
  - rewrite (bind_inr _ _ _ _ _ H). now apply Hk.
  - destruct H as [e H]. exists e. now apply bind_inl.
Qed.


(** C9. Every inference job -- one per call of the task body, which always
    goes through -- is recorded in [generate_predictions.sh] and handed to
    the shell with one and the same command, and in that command the output
    path runs straight into the stop-words flag: it ends in
    [<output_path>.jsonl--stop_words <stop_words>], with no space between. *)
Theorem inference_command_glues_output_path_to_stop_words
    model_path attn (bs abs : Z) config executor repr results_dir log_dir data_dir
    pregen stop_words task w :
  exists gen input cmd,
    evaluate_task E model_path attn bs abs config executor repr results_dir log_dir
                  data_dir pregen stop_words task w
    = (inr tt,
       World (effects w ++ gen
              ++ [MakeDirs (path_join log_dir task);
                  WriteFile (path_join (path_join log_dir task) "generate_predictions.sh") cmd;
                  System ("cd " +:+ BASE_DIR E +:+ "; " +:+ cmd)])
             (stdout w))
    /\ cmd = task_gen_cmd executor model_path attn bs abs input results_dir task stop_words
    /\ cmd = (executor +:+ " run_star_attn_inference.py --model_path " +:+ model_path
              +:+ " --attn_type " +:+ attn +:+ " --block_size " +:+ str_of_int bs
              +:+ " --anchor_block_size " +:+ str_of_int abs
              +:+ " --tokens_to_generate 128 --input_path " +:+ input +:+ " --output_path ")
             +:+ path_join results_dir task +:+ ".jsonl--stop_words " +:+ stop_words.
Proof.
  destruct (evaluate_task_run model_path attn bs abs config executor repr results_dir
              log_dir data_dir pregen stop_words task w) as (gen & input & Hrun & _).
  exists gen, input, (task_gen_cmd executor model_path attn bs abs input results_dir
                                   task stop_words).
  split; [exact Hrun|]. split; [reflexivity|].
  unfold task_gen_cmd. rewrite !append_assoc. reflexivity.
Qed.

(** C3, amended.  Under a non-dense attention with a process ceiling [np] and
    a non-zero block size, the process count is
    [min np (seq_length // block_size)] and the job is launched with it; it
    never exceeds the ceiling; it is at least 1 when the ceiling is and the
    block size lies between 1 and the sequence length. *)
Theorem process_count_is_min_of_ceiling_and_blocks attn (nn np seq_length bs : Z) w :
  not_dense attn = true -> bs <> 0 ->
  nproc_per_node_seq_len (Some np) seq_length bs w
    = (inr (Z.min np (seq_length `div` bs)), w)
  /\ inference_executor attn nn (Some np) seq_length bs w
     = (inr ("torchrun --nnodes=" +:+ str_of_int nn +:+ " --nproc_per_node="
             +:+ str_of_int (Z.min np (seq_length `div` bs))), w)
  /\ Z.min np (seq_length `div` bs) <= np
  /\ (1 <= np -> 0 < bs <= seq_length -> 1 <= Z.min np (seq_length `div` bs))
  /\ (forall abs, 1 <= np -> 0 < bs -> 0 <= abs ->
      skipped attn bs abs seq_length = false -> is_star attn = true ->
      1 <= Z.min np (seq_length `div` bs)).
Proof.
  intros Hdense Hbs.
  assert (Hn : nproc_per_node_seq_len (Some np) seq_length bs w
               = (inr (Z.min np (seq_length `div` bs)), w)).
  { unfold nproc_per_node_seq_len, floordiv.
    destruct (bs =? 0) eqn:Hz; [lia|reflexivity]. }
  split; [exact Hn|]. split.
  - unfold inference_executor. rewrite Hdense.
    now rewrite (bind_inr _ _ _ _ _ Hn).
  - assert (Hone : 1 <= np -> 0 < bs <= seq_length ->
                    1 <= Z.min np (seq_length `div` bs)).
    { intros Hnp [Hpos Hle].
      assert (1 <= seq_length `div` bs); [|lia].
      apply Z.div_le_lower_bound; lia. }
    split; [lia|]. split; [exact Hone|].
    intros abs Hnp Hpos Habs Hskip Hstar. apply Hone; [exact Hnp|].
    unfold skipped in Hskip. rewrite Hstar in Hskip. cbn in Hskip. lia.
Qed.

Lemma stable_ret {A} (a : A) : stable (ret a).
Proof. intros w1 w2 H. now split. Qed.

Lemma stable_raise {A} e : stable (raise (A := A) e).
Proof. intros w1 w2 H. now split. Qed.

Lemma stable_bind {A B} (m : M world exn A) (k : A -> M world exn B) :
  stable m -> (forall a, stable (k a)) -> stable (bind m k).
Proof.
  intros Hm Hk w1 w2 H. unfold bind.
  destruct (Hm w1 w2 H) as [Hfst Hsnd].
  destruct (m w1) as [[e1|a1] w1'], (m w2) as [[e2|a2] w2']; cbn in *;
    try discriminate.
  - injection Hfst as ->. now split.
  - injection Hfst as ->. now apply Hk.
Qed.

Lemma stable_emit e : stable (emit e).
Proof. intros w1 w2 H. cbn. now rewrite H. Qed.

Lemma stable_print line : stable (print line).
Proof. intros w1 w2 H. now cbn. Qed.

Lemma stable_exists_now path : stable (exists_now E path).
Proof. intros w1 w2 H. cbn. now rewrite H. Qed.

Lemma stable_for_each {A} (body : A -> M world exn unit) l :
  (forall x, stable (body x)) -> stable (for_each l body).
Proof.
  intros H. induction l as [|x l IH]; [apply stable_ret|].
  cbn [for_each]. apply stable_bind; auto.
Qed.

Create HintDb stable_db.
#[local] Hint Resolve stable_ret stable_raise stable_emit stable_print
  stable_exists_now : stable_db.

Ltac stable_step :=
  first [ progress auto with stable_db
        | apply stable_bind; [|intros ?]
        | apply stable_for_each; intros ?
        | match goal with
          | |- stable (if ?c then _ else _) => destruct c
          | |- stable (match ?c with _ => _ end) => destruct c
          end ].

Lemma stable_submit_job cmd log_dir filename : stable (submit_job E cmd log_dir filename).
Proof. unfold submit_job. repeat stable_step. Qed.

Lemma stable_schedule_seq_length model_path attn (bs abs : Z) config tasks np out nn
    pregen stop_words s :
  stable (schedule_seq_length E model_path attn bs abs config tasks np out nn pregen
                              stop_words s).
Proof.
  unfold schedule_seq_length, inference_executor, nproc_per_node_seq_len, evaluate_task.
  repeat first [ apply stable_submit_job | stable_step ].
Qed.

(** Dropping from a loop an element whose body only prints changes neither
    the way the loop ends nor its effects. *)
Lemma for_each_printing_element {A} (body : A -> M world exn unit) x line l1 l2 w :
  (forall y, stable (body y)) ->
  (forall w, body x w = (inr tt, World (effects w) (stdout w ++ [line]))) ->
  fst (for_each (l1 ++ x :: l2) body w) = fst (for_each (l1 ++ l2) body w)
  /\ effects (snd (for_each (l1 ++ x :: l2) body w))
     = effects (snd (for_each (l1 ++ l2) body w)).
Proof.
  intros Hst Hx. revert w. induction l1 as [|y l1 IH]; intros w.
  - cbn [app for_each]. rewrite (bind_inr _ _ _ _ _ (Hx w)).
    now apply stable_for_each.
  - cbn [app for_each]. unfold bind.
    destruct (body y w) as [[e|[]] w']; [now split|apply IH].
Qed.

(** C4, amended.  Under a star attention, a sequence length smaller than
    [block_size + anchor_block_size] is passed over with one printed line and
    no effect at all; the whole sweep ends as it does without that length,
    with the same directories, job records and commands. *)
Theorem star_oversized_blocks_skip_the_length model_path attn (bs abs : Z) config tasks
    np out nn pregen (s : Z) :
  is_star attn = true -> s < bs + abs ->
  (forall data stop_words w,
     schedule_seq_length E model_path attn bs abs config tasks np out nn data
                         stop_words s w
     = (inr tt, World (effects w) (stdout w ++ [skip_message bs abs s])))
  /\ (forall l1 l2 w,
        fst (main E model_path attn bs abs config (l1 ++ s :: l2) tasks np out nn pregen w)
        = fst (main E model_path attn bs abs config (l1 ++ l2) tasks np out nn pregen w)
        /\ effects (snd (main E model_path attn bs abs config (l1 ++ s :: l2) tasks np
                              out nn pregen w))
           = effects (snd (main E model_path attn bs abs config (l1 ++ l2) tasks np
                               out nn pregen w))).
Proof.
  intros Hstar Hlt.
  assert (Hskip : forall data stop_words w,
            schedule_seq_length E model_path attn bs abs config tasks np out nn data
                                stop_words s w
            = (inr tt, World (effects w) (stdout w ++ [skip_message bs abs s]))).
  { intros data stop_words w. unfold schedule_seq_length, skipped. rewrite Hstar.
    destruct (s <? bs + abs) eqn:Hs; [reflexivity|lia]. }
  split; [exact Hskip|].
  intros l1 l2 w. unfold main.
  destruct (is_star attn && (bs <? abs)); [now split|].
  rewrite !(bind_inr (ret tt) _ w tt w eq_refl).
  destruct (PROMPT_TEMPLATES E config) as [ws|]; [|now split].
  rewrite !(bind_inr (ret (str_join "," ws)) _ w (str_join "," ws) w eq_refl).
  apply for_each_printing_element with (line := skip_message bs abs s).
  - intros y. apply stable_schedule_seq_length.
  - apply Hskip.
Qed.

End Proofs.

(** *** The theorems at concrete command lines *)


(** C3, amended, at star attention with blocks of 4096 over 16384 tokens and
    a ceiling of 8: four processes. *)
Lemma process_count_is_min_of_ceiling_and_blocks_witness :
  nproc_per_node_seq_len (Some 8) 16384 4096 empty_world
  = (inr (Z.min 8 (16384 `div` 4096)), empty_world).
Proof.
  refine (proj1 (process_count_is_min_of_ceiling_and_blocks
                   "star" 1 8 16384 4096 empty_world eq_refl _)).
  lia.
Defined.

(** C3 as stated fails.  Ring attention with the default block size [-1]
    passes every validation and is launched with [-16384] processes per
    node; star attention with a block one token longer than the sequence and
    the default anchor [-1] is launched with [0]. *)
Lemma process_count_below_one :
  not_dense (attn_type ring_defaults) = true
  /\ nproc_per_node_seq_len (nproc_per_node ring_defaults) 16384
       (block_size ring_defaults) empty_world = (inr (-16384), empty_world)
  /\ In (System
          ("cd /opt/Star-Attention; torchrun --nnodes=1 --nproc_per_node=-16384 "
           +:+ "run_star_attn_inference.py --model_path /models/llama3 --attn_type ring "
           +:+ "--block_size -1 --anchor_block_size -1 --tokens_to_generate 128 "
           +:+ "--input_path /opt/Star-Attention/results/llama_ring/16k/data/qa1_16k.jsonl "
           +:+ "--output_path /opt/Star-Attention/results/llama_ring/16k/qa1.jsonl"
           +:+ "--stop_words <|eot_id|>,<|end_of_text|>"))
        (effects (snd (script sample_env ring_defaults empty_world)))
  /\ fst (script sample_env star_block_beyond_length empty_world) = inr tt
  /\ nproc_per_node_seq_len (nproc_per_node star_block_beyond_length) 16384
       (block_size star_block_beyond_length) empty_world = (inr 0, empty_world).
Proof. vm_compute. intuition. Qed.

(** C4, amended, at star attention with blocks and anchors of 16384 over
    16384 tokens. *)
Lemma star_oversized_blocks_skip_the_length_witness :
  schedule_seq_length sample_env "/models/llama3" "star" 16384 16384 "llama3" ["qa1"]
                      (Some 8) "/opt/Star-Attention/results" 1 None "<|eot_id|>"
                      16384 empty_world
  = (inr tt, World [] [skip_message 16384 16384 16384]).
Proof.
  refine (proj1 (star_oversized_blocks_skip_the_length
                   sample_env "/models/llama3" "star" 16384 16384 "llama3" ["qa1"]
                   (Some 8) "/opt/Star-Attention/results" 1 None 16384 eq_refl _)
                None "<|eot_id|>" empty_world).
  lia.
Defined.

(** C4 as stated fails.  Under dense attention, block sizes that add up to
    twice the sequence length do not stop the inference job: its record is
    written and its command is run. *)
Lemma dense_oversized_blocks_still_dispatched :
  block_size dense_wide_blocks + anchor_block_size dense_wide_blocks > 16384
  /\ seq_lengths dense_wide_blocks = [16384]
  /\ In (System
          ("cd /opt/Star-Attention; python run_star_attn_inference.py "
           +:+ "--model_path /models/llama3 --attn_type dense --block_size 16384 "
           +:+ "--anchor_block_size 16384 --tokens_to_generate 128 "
           +:+ "--input_path /opt/Star-Attention/results/llama_dense/16k/data/qa1_16k.jsonl "
           +:+ "--output_path /opt/Star-Attention/results/llama_dense/16k/qa1.jsonl"
           +:+ "--stop_words <|eot_id|>,<|end_of_text|>"))
        (effects (snd (script sample_env dense_wide_blocks empty_world)))
  /\ exists record,
       In (WriteFile
             "/opt/Star-Attention/results/llama_dense/16k/logs/qa1/generate_predictions.sh"
             record)
          (effects (snd (script sample_env dense_wide_blocks empty_world))).
Proof.
  split; [reflexivity|]. split; [reflexivity|]. split.
  - vm_compute. intuition.
  - eexists. vm_compute. do 6 right. left. reflexivity.
Qed.

End BabilongFacts.

(** ** The generator of [common_words_extraction.py] *)

Module CommonWordsFacts.
Import Monad Monad.Notations Py CommonWords MonadFacts.

Section Proofs.
Context (E : Env) (a : Args) (words : list string).

Local Abbreviation drawn := (CommonWords.drawn E a words).
Local Abbreviation regime := (CommonWords.regime a).
Local Abbreviation kept := (CommonWords.kept a).
Local Abbreviation measured := (CommonWords.measured E a words).

Lemma get_example_ok n cr ur st context common st' :
  get_example E a words n cr ur (num_cw a) st = (inr (context, common), st') ->
  drawn st st' n cr ur context common.
Proof.
  unfold get_example, bind, random_sample, ret.
  destruct (sample E words n (random st)) as [[full r]|] eqn:Hs; [|discriminate].
  intros [= <- <- <-]. now exists full.
Qed.

Lemma get_example_fail n cr ur cn st f st' :
  get_example E a words n cr ur cn st = (inl f, st') ->
  (exists msg, f = Exception (ValueError msg)) /\ st' = st.
Proof.
  unfold get_example, bind, random_sample, ret.
  destruct (sample E words n (random st)) as [[full r]|] eqn:Hs; [discriminate|].
  intros [= <- <-]. eauto.
Qed.

Lemma generate_input_output_ok n st context query answer st' :
  generate_input_output E a words n st = (inr (context, query, answer), st') ->
  exists st1 context_example answer_example list_context,
    let '((en, ecr, eur), (cr, ur)) := regime in
    drawn st st1 en ecr eur context_example answer_example
    /\ drawn st1 st' n cr ur list_context answer
    /\ query = query_template a
    /\ context = (format_context E (context_template a) context_example
                  +:+ query_template a +:+ numbered answer_example)
                 +:+ newline +:+ format_context E (context_template a) list_context.
Proof.
  unfold generate_input_output, regime. intros H.
  apply bind_ok in H as ([[ce ae] [c an]] & st2 & H & Hret).
  injection Hret as <- <- <- <-.
  destruct (max_seq_length a <? 4096);
    apply bind_ok in H as ([ce' ae'] & st1 & H1 & H);
    apply bind_ok in H as ([c' an'] & st3 & H2 & H);
    injection H as -> -> -> -> ->;
    apply get_example_ok in H1, H2; exists st1, ce, ae, c; auto.
Qed.

Lemma generate_input_output_fail n st f st' :
  generate_input_output E a words n st = (inl f, st') ->
  (exists msg, f = Exception (ValueError msg)) /\ printed st' = printed st.
Proof.
  unfold generate_input_output. intros H.
  apply bind_fail in H as [H|([[ce ae] [c an]] & st2 & _ & Hret)]; [|discriminate].
  destruct (max_seq_length a <? 4096);
    (apply bind_fail in H as [H|([ce' ae'] & st1 & H1 & H)];
     [apply get_example_fail in H as [H ->]; now split|]);
    (apply bind_fail in H as [H|([c' an'] & st3 & _ & H)]; [|discriminate]);
    apply get_example_fail in H as [H ->];
    apply get_example_ok in H1 as (? & _ & H1 & _); now split.
Qed.

Section Loops.
Context (max_len incremental : Z).

Local Abbreviation retry_state := (CommonWords.retry_state E a words max_len incremental).
Local Abbreviation attempt_at := (CommonWords.attempt_at E a words max_len incremental).
Local Abbreviation made_from := (CommonWords.made_from E a words max_len).
Local Abbreviation trial_line := (CommonWords.trial_line max_len).
Local Abbreviation search := (CommonWords.search a words max_len incremental).

Lemma attempt_ok used st context query answer len st' :
  attempt E a words max_len used st = (inr (context, query, answer, len), st') ->
  generate_input_output E a words used st = (inr (context, query, answer), st')
  /\ len = token_count E (context +:+ query) + tokens_to_generate a
  /\ len <= max_len.
Proof.
  unfold attempt. intros H.
  apply bind_ok in H as ([[c q] an] & st1 & Hgen & H).
  destruct (token_count E (c +:+ q) + tokens_to_generate a <=? max_len) eqn:Hfit;
    [|discriminate].
  injection H as -> -> -> <- ->. repeat split; [exact Hgen|lia].
Qed.

Lemma attempt_fail used st f st' :
  attempt E a words max_len used st = (inl f, st') -> exists e, f = Exception e.
Proof.
  unfold attempt. intros H.
  apply bind_fail in H as [H|([[c q] an] & st1 & _ & H)].
  - apply generate_input_output_fail in H as [[msg ->] _]. eauto.
  - destruct (_ <=? _); [discriminate|]. injection H as <- _. eauto.
Qed.

(** The loop returns what its first fitting attempt returns; while no
    attempt fits it goes on, until the fuel is spent. *)
Lemma sample_loop_run fuel used st :
  (exists n r st',
      (n < fuel)%nat
      /\ (forall m, (m < n)%nat -> fails (attempt_at m used st))
      /\ attempt_at n used st = (inr r, st')
      /\ sample_loop E a words max_len incremental fuel used st = (inr r, st'))
  \/ ((forall m, (m < fuel)%nat -> fails (attempt_at m used st))
      /\ exists st', sample_loop E a words max_len incremental fuel used st
                     = (inl OutOfFuel, st')).
Proof.
  revert used st. induction fuel as [|fuel IH]; intros used st.
  - right. split; [intros m Hm; lia|]. now exists st.
  - cbn [sample_loop].
    destruct (attempt E a words max_len used st) as [[f|r] st1] eqn:Hat.
    + destruct (attempt_fail _ _ _ _ Hat) as [e ->].
      assert (Hfirst : fails (attempt_at 0 used st)).
      { exists e. unfold attempt_at. cbn. now rewrite Hat. }
      assert (Hnext : forall m, attempt_at (S m) used st
                                = attempt_at m (shrink incremental used) st1).
      { intros m. unfold attempt_at. cbn [retry_state]. now rewrite Hat. }
      destruct (IH (shrink incremental used) st1)
        as [(n & r & st' & Hn & Hbefore & Hfit & Hrun)|[Hall [st' Hrun]]].
      * left. exists (S n), r, st'. repeat split; [lia| |now rewrite Hnext|exact Hrun].
        intros [|m] Hm; [exact Hfirst|]. rewrite Hnext. apply Hbefore. lia.
      * right. split; [|now exists st'].
        intros [|m] Hm; [exact Hfirst|]. rewrite Hnext. apply Hall. lia.
    + left. exists 0%nat, r, st1. repeat split; [lia|intros m Hm; lia|exact Hat].
Qed.

(** A returned sample comes from an attempt that went through. *)
Lemma sample_loop_ok fuel used st r st' :
  sample_loop E a words max_len incremental fuel used st = (inr r, st') ->
  exists u s, attempt E a words max_len u s = (inr r, st').
Proof.
  intros H.
  destruct (sample_loop_run fuel used st)
    as [(n & r' & st'' & _ & _ & Hfit & Hrun)|[_ [st'' Hrun]]];
    rewrite Hrun in H; [|discriminate].
  injection H as <- <-. eauto.
Qed.

Lemma sample_loop_fail fuel used st f st' :
  sample_loop E a words max_len incremental fuel used st = (inl f, st') -> f = OutOfFuel.
Proof.
  intros H.
  destruct (sample_loop_run fuel used st)
    as [(n & r' & st'' & _ & _ & Hfit & Hrun)|[_ [st'' Hrun]]];
    rewrite Hrun in H; [discriminate|congruence].
Qed.

Lemma generate_sample_ok fuel num_words i st r st' :
  generate_sample E a words max_len incremental fuel num_words i st = (inr r, st') ->
  index r = i /\ exists used s s' context query, made_from r used s s' context query.
Proof.
  unfold generate_sample. intros H.
  apply bind_ok in H as ([[[c q] an] len] & st1 & Hloop & H).
  injection H as <- <-. split; [reflexivity|].
  apply sample_loop_ok in Hloop as (u & s & Hat).
  exists u, s, st1, c, q. now split.
Qed.

Lemma generate_samples_ok fuel num_words indices st rs st' :
  generate_samples E a words max_len incremental fuel num_words indices st = (inr rs, st') ->
  map index rs = indices
  /\ Forall (fun r => exists used s s' context query, made_from r used s s' context query) rs.
Proof.
  revert st rs. induction indices as [|i indices IH]; intros st rs H.
  - injection H as <- <-. split; [reflexivity|constructor].
  - cbn [generate_samples] in H.
    apply bind_ok in H as (r & st1 & Hr & H).
    apply bind_ok in H as (rs' & st2 & Hrs & H).
    injection H as <- <-.
    apply generate_sample_ok in Hr as [Hi Hr]. apply IH in Hrs as [His Hrs].
    split; [cbn; congruence|now constructor].
Qed.

Lemma sys_word_pair_random_ok fuel n st rs st' :
  sys_word_pair_random E a words max_len incremental fuel n st = (inr rs, st') ->
  map index rs = range n
  /\ Forall (fun r => exists used s s' context query, made_from r used s s' context query) rs.
Proof.
  unfold sys_word_pair_random. intros H.
  apply bind_ok in H as (k & st1 & _ & H).
  apply bind_ok in H as ([] & st2 & _ & H).
  now apply generate_samples_ok in H.
Qed.

(** C5. Every record the generator returns carries a length within the
    budget: [length] is the token count of the context and query the sample
    was accepted with, plus [tokens_to_generate], and it is at most
    [max_seq_length] -- so that token count is at most
    [max_seq_length - tokens_to_generate].  The record keeps that context
    and query, with their white space collapsed under [--remove_newline_tab]. *)
Theorem records_fit_the_budget fuel n st rs st' :
  sys_word_pair_random E a words max_len incremental fuel n st = (inr rs, st') ->
  Forall (fun r =>
            length_ r <= max_len
            /\ exists context query,
                 length_ r = token_count E (context +:+ query) + tokens_to_generate a
                 /\ token_count E (context +:+ query) <= max_len - tokens_to_generate a
                 /\ input_context r = kept context
                 /\ input_query r = kept query) rs.
Proof.
  intros H. apply sys_word_pair_random_ok in H as [_ H].
  eapply Forall_impl; [exact H|]. cbn beta.
  intros r (used & s & s' & c & q & Hat & Hc & Hq).
  apply attempt_ok in Hat as (_ & Hlen & Hle).
  split; [exact Hle|]. exists c, q. repeat split; [exact Hlen|lia|exact Hc|exact Hq].
Qed.

Lemma slice_to_nonneg {A} (l : list A) n : 0 <= n -> slice_to l n = take (Z.to_nat n) l.
Proof.
  intros Hn. unfold slice_to, slice_index. destruct (n <? 0) eqn:H; [lia|reflexivity].
Qed.

Lemma slice_from_nonneg {A} (l : list A) n : 0 <= n -> slice_from l n = drop (Z.to_nat n) l.
Proof.
  intros Hn. unfold slice_from, slice_index. destruct (n <? 0) eqn:H; [lia|reflexivity].
Qed.

(** C7. With a non-negative [num_cw], the [outputs] of every record are the
    first [num_cw] words of the list [random.sample] drew for it, in the
    order of that draw; its context, before any white-space collapsing, ends
    in the formatted numbered list of the seeded shuffle of those words
    repeated [cr] times followed by the other drawn words repeated [ur]
    times, [cr] and [ur] being the repeat counts of the regime. *)
Theorem outputs_are_the_common_words fuel n st rs st' :
  0 <= num_cw a ->
  sys_word_pair_random E a words max_len incremental fuel n st = (inr rs, st') ->
  Forall (fun r =>
            exists used s s' full few_shot,
              sample E words used (random s) = Some (full, random s')
              /\ outputs r = take (Z.to_nat (num_cw a)) full
              /\ input_context r
                 = kept (few_shot +:+ newline
                         +:+ format_context E (context_template a)
                               (numbered
                                  (seeded_shuffle E (random_seed a)
                                     (list_mul (outputs r) (fst (snd regime))
                                      ++ list_mul (drop (Z.to_nat (num_cw a)) full)
                                                  (snd (snd regime))))))) rs.
Proof.
  intros Hcw H. apply sys_word_pair_random_ok in H as [_ H].
  eapply Forall_impl; [exact H|]. cbn beta.
  intros r (used & s & s' & c & q & Hat & Hc & _).
  apply attempt_ok in Hat as (Hgen & _ & _).
  apply generate_input_output_ok in Hgen as (st1 & ce & ae & lc & Hgen).
  destruct regime as [[[en ecr] eur] [cr ur]].
  destruct Hgen as (_ & (full & Hsample & _ & Hcommon & Hlc) & _ & Hctx).
  exists used, st1, s', full, (format_context E (context_template a) ce
                              +:+ query_template a +:+ numbered ae).
  rewrite slice_to_nonneg in Hcommon by exact Hcw.
  rewrite slice_from_nonneg in Hlc by exact Hcw.
  repeat split; [exact Hsample|exact Hcommon|].
  rewrite Hc, Hctx, Hlc. cbn [fst snd]. reflexivity.
Qed.

Lemma shrink_iter n used st : fst (retry_state n used st) = Nat.iter n (shrink incremental) used.
Proof.
  revert used st. induction n as [|n IH]; intros used st; [reflexivity|].
  cbn [retry_state]. rewrite IH. symmetry. apply Nat.iter_succ_r.
Qed.

(** C2, amended.  The per-sample loop never raises: it returns what its
    first fitting attempt returns, or it is still running when the fuel is
    spent, every attempt so far having failed -- there is no floor at which
    it gives up.  Attempt number [n] is made with the item count shrunk [n]
    times; shrinking takes one increment off a count above one increment and
    leaves any other count as it is. *)
Theorem sample_loop_retries_until_an_attempt_fits fuel used st :
  ((exists n r st',
       (n < fuel)%nat
       /\ (forall m, (m < n)%nat -> fails (attempt_at m used st))
       /\ attempt_at n used st = (inr r, st')
       /\ sample_loop E a words max_len incremental fuel used st = (inr r, st'))
   \/ ((forall m, (m < fuel)%nat -> fails (attempt_at m used st))
       /\ exists st', sample_loop E a words max_len incremental fuel used st
                      = (inl OutOfFuel, st')))
  /\ (forall n, fst (retry_state n used st) = Nat.iter n (shrink incremental) used)
  /\ (forall u, incremental < u -> shrink incremental u = u - incremental)
  /\ (forall u, u <= incremental -> shrink incremental u = u).
Proof.
  split; [apply sample_loop_run|]. split; [intros n; apply shrink_iter|].
  unfold shrink. split; intros u Hu; destruct (incremental <? u) eqn:H; lia.
Qed.

(** When no attempt can fit, the loop has no way out. *)
Lemma sample_loop_no_exit :
  (forall used st, fails (attempt E a words max_len used st)) ->
  forall fuel used st,
    exists st', sample_loop E a words max_len incremental fuel used st = (inl OutOfFuel, st').
Proof.
  intros Hfail fuel used st.
  destruct (sample_loop_run fuel used st)
    as [(n & r & st' & _ & _ & Hfit & _)|[_ Hrun]]; [|exact Hrun].
  destruct (Hfail (fst (retry_state n used st)) (snd (retry_state n used st))) as [e He].
  unfold attempt_at in Hfit. rewrite Hfit in He. discriminate.
Qed.

(** A reserve of generated tokens above the whole budget leaves room for
    nothing. *)
Lemma reserve_above_budget used st :
  max_len < tokens_to_generate a -> fails (attempt E a words max_len used st).
Proof.
  intros Hlt. unfold fails, attempt, bind.
  destruct (generate_input_output E a words used st) as [[f|[[c q] an]] st1] eqn:Hgen.
  - apply generate_input_output_fail in Hgen as [[msg ->] _]. now eexists.
  - destruct (token_count E (c +:+ q) + tokens_to_generate a <=? max_len) eqn:Hfit;
      [|now eexists].
    apply Z.leb_le in Hfit. unfold token_count in Hfit. lia.
Qed.

Lemma generate_samples_no_exit :
  (forall used st, fails (attempt E a words max_len used st)) ->
  forall fuel num_words i rest st,
    exists st', generate_samples E a words max_len incremental fuel num_words (i :: rest) st
                = (inl OutOfFuel, st').
Proof.
  intros Hfail fuel num_words i rest st.
  destruct (sample_loop_no_exit Hfail fuel num_words st) as [st' Hloop].
  exists st'. cbn [generate_samples]. apply bind_inl.
  unfold generate_sample. now apply bind_inl.
Qed.

Lemma sys_word_pair_random_no_exit fuel n st :
  max_len < tokens_to_generate a -> 1 <= n ->
  exists st', sys_word_pair_random E a words max_len incremental fuel n st
              = (inl OutOfFuel, st').
Proof.
  intros Hlt Hn. unfold sys_word_pair_random.
  assert (Hcal : calibrate E a words max_len incremental fuel incremental 0 st
                 = (inr incremental, st)).
  { destruct fuel; cbn [calibrate];
      destruct (0 + tokens_to_generate a <? max_len) eqn:H; try lia; reflexivity. }
  rewrite (bind_inr _ _ _ _ _ Hcal).
  rewrite (bind_inr (print E (NumWords incremental)) _ st tt _ eq_refl).
  unfold range. destruct (Z.to_nat n) as [|k] eqn:Hk; [lia|].
  cbn [seq map]. apply generate_samples_no_exit.
  intros used s. now apply reserve_above_budget.
Qed.

(** **** The calibration search *)

Lemma generate_input_output_printed n st r st' :
  generate_input_output E a words n st = (inr r, st') -> printed st' = printed st.
Proof.
  destruct r as [[c q] an]. intros H.
  apply generate_input_output_ok in H as (st1 & ce & ae & lc & H).
  destruct regime as [[[en ecr] eur] [cr ur]].
  destruct H as ((? & _ & H1 & _) & (? & _ & H2 & _) & _). congruence.
Qed.

(** With enough fuel the search ends: on a [ValueError] of [random.sample],
    or with a count reached in one of the ways of [search]. *)
Lemma calibrate_run fuel num_words total st :
  0 < incremental -> (1 <= fuel)%nat ->
  Z.of_nat (length words) - num_words < Z.of_nat fuel * incremental ->
  exists outcome st' trials,
    calibrate E a words max_len incremental fuel num_words total st = (outcome, st')
    /\ printed st' = printed st ++ map trial_line trials
    /\ Forall measured trials
    /\ match outcome with
       | inl f => exists msg, f = Exception (ValueError msg)
       | inr k => search num_words total trials k
       end.
Proof.
  intros Hinc. revert num_words total st.
  induction fuel as [|fuel IH]; intros nw total st Hfuel Hroom; [lia|].
  cbn [calibrate].
  destruct (total + tokens_to_generate a <? max_len) eqn:Hloop.
  2:{ exists (inr nw), st, []. rewrite app_nil_r.
      repeat split; [constructor|]. apply search_done. lia. }
  apply Z.ltb_lt in Hloop. unfold bind at 1.
  destruct (generate_input_output E a words nw st) as [[f|[[c q] an]] st1] eqn:Hgen.
  { exists (inl f), st1, []. rewrite app_nil_r.
    apply generate_input_output_fail in Hgen as [Hf Hst].
    repeat split; [now symmetry|constructor|exact Hf]. }
  pose proof (generate_input_output_printed _ _ _ _ Hgen) as Hprinted.
  set (cur := token_count E (c +:+ q +:+ " " +:+ numbered an) + tokens_to_generate a).
  assert (Hmeasured : measured (nw, cur)).
  { exists st, st1, c, q, an. now split. }
  unfold bind at 1. cbn [print modify].
  destruct (max_len <? cur) eqn:Hover.
  { eexists (inr _), _, [(nw, cur)]. split; [reflexivity|]. cbn [printed map].
    rewrite Hprinted. repeat split; [now constructor|].
    apply search_overflow; lia. }
  destruct (Z.of_nat (length words) <? nw + incremental) eqn:Hcap.
  { eexists (inr _), _, [(nw, cur)]. split; [reflexivity|]. cbn [printed map].
    rewrite Hprinted. repeat split; [now constructor|].
    apply search_cap; lia. }
  destruct (IH (nw + incremental) (cur - tokens_to_generate a)
               (State (random st1) (printed st1 ++ [trial_line (nw, cur)])))
    as (outcome & st' & trials & Hrun & Hprint & Hall & Hout); [nia|nia|].
  exists outcome, st', ((nw, cur) :: trials).
  split; [|split; [|split]].
  - rewrite <- Hrun. f_equal. unfold cur. lia.
  - rewrite Hprint. cbn [printed map]. rewrite Hprinted, <- app_assoc. reflexivity.
  - now constructor.
  - destruct outcome as [f|k]; [exact Hout|]. apply search_grow; try lia. exact Hout.
Qed.

(** Trials follow one another one increment apart, and every trial but the
    last left room to spare. *)
Lemma search_chain num_words total trials k :
  search num_words total trials k ->
  forall pre n1 c1 n2 c2 post,
    trials = pre ++ (n1, c1) :: (n2, c2) :: post ->
    n2 = n1 + incremental /\ c1 < max_len.
Proof.
  induction 1 as [nw total Hend|nw total cur Hloop Hover|nw total cur Hloop Hfit Hcap
                 |nw total cur trials k Hloop Hfit Hroom Hrest IH];
    intros pre n1 c1 n2 c2 post Heq.
  - now destruct pre.
  - destruct pre as [|? [|? ?]]; discriminate.
  - destruct pre as [|? [|? ?]]; discriminate.
  - destruct pre as [|p pre].
    + injection Heq as <- <- Heq. subst trials.
      inversion Hrest; subst; split; try reflexivity; lia.
    + injection Heq as _ Heq. now apply (IH pre n1 c1 n2 c2 post).
Qed.

(** What the last trial says about the count returned. *)
Lemma search_last num_words total trials k :
  search num_words total trials k ->
  forall pre n cur,
    trials = pre ++ [(n, cur)] ->
    (max_len < cur -> k = n - incremental)
    /\ (cur <= max_len -> Z.of_nat (length words) < n + incremental ->
        k = Z.of_nat (length words)).
Proof.
  induction 1 as [nw total Hend|nw total cur Hloop Hover|nw total cur Hloop Hfit Hcap
                 |nw total cur trials k Hloop Hfit Hroom Hrest IH];
    intros pre n c Heq.
  - now destruct pre.
  - destruct pre as [|? [|? ?]]; try discriminate.
    injection Heq as <- <-. split; [reflexivity|lia].
  - destruct pre as [|? [|? ?]]; try discriminate.
    injection Heq as <- <-. split; [lia|reflexivity].
  - destruct pre as [|p pre].
    + injection Heq as <- <- Heq. subst trials. inversion Hrest; subst. lia.
    + injection Heq as _ Heq. now apply (IH pre n c).
Qed.


End Loops.

(** **** The two regimes *)

Lemma generate_input_output_ignores_frequencies cw ucw n st :
  max_seq_length a < 4096 ->
  generate_input_output E (with_freqs a cw ucw) words n st
  = generate_input_output E a words n st.
Proof.
  intros Hlt. unfold generate_input_output, get_example. cbn [with_freqs max_seq_length
    random_seed num_cw context_template query_template].
  destruct (max_seq_length a <? 4096) eqn:H; [reflexivity|lia].
Qed.

Lemma calibrate_ignores_frequencies cw ucw max_len incremental fuel num_words total st :
  max_seq_length a < 4096 ->
  calibrate E (with_freqs a cw ucw) words max_len incremental fuel num_words total st
  = calibrate E a words max_len incremental fuel num_words total st.
Proof.
  intros Hlt. revert num_words total st.
  induction fuel as [|fuel IH]; intros nw total st; cbn [calibrate];
    cbn [with_freqs tokens_to_generate]; [reflexivity|].
  destruct (total + tokens_to_generate a <? max_len); [|reflexivity].
  apply bind_ext; [now apply generate_input_output_ignores_frequencies|].
  intros [[c q] an] st1. apply bind_ext; [reflexivity|]. intros _ st2.
  repeat (destruct (_ <? _); [reflexivity|]). apply IH.
Qed.

Lemma attempt_ignores_frequencies cw ucw max_len used st :
  max_seq_length a < 4096 ->
  attempt E (with_freqs a cw ucw) words max_len used st
  = attempt E a words max_len used st.
Proof.
  intros Hlt. unfold attempt.
  apply bind_ext; [now apply generate_input_output_ignores_frequencies|].
  now intros [[c q] an] st1.
Qed.

Lemma sample_loop_ignores_frequencies cw ucw max_len incremental fuel used st :
  max_seq_length a < 4096 ->
  sample_loop E (with_freqs a cw ucw) words max_len incremental fuel used st
  = sample_loop E a words max_len incremental fuel used st.
Proof.
  intros Hlt. revert used st.
  induction fuel as [|fuel IH]; intros used st; [reflexivity|].
  cbn [sample_loop]. rewrite attempt_ignores_frequencies by exact Hlt.
  destruct (attempt E a words max_len used st) as [[[e|]|r] st1]; auto.
Qed.

Lemma generate_samples_ignores_frequencies cw ucw max_len incremental fuel num_words
    indices st :
  max_seq_length a < 4096 ->
  generate_samples E (with_freqs a cw ucw) words max_len incremental fuel num_words indices st
  = generate_samples E a words max_len incremental fuel num_words indices st.
Proof.
  intros Hlt. revert st.
  induction indices as [|i indices IH]; intros st; [reflexivity|].
  cbn [generate_samples]. apply bind_ext.
  - unfold generate_sample. apply bind_ext; [now apply sample_loop_ignores_frequencies|].
    now intros [[[c q] an] len] st1.
  - intros r st1. apply bind_ext; [apply IH|reflexivity].
Qed.

(** C10. Below a budget of 4096 the values of [--freq_cw] and [--freq_ucw]
    have no bearing on a run: with any other values [main] ends the same
    way, in the same state, with the same records.  Every text generated
    there has a few-shot example drawn with 20 words and repeat counts 3 and
    1, and a list drawn with repeat counts 6 and 1. *)
Theorem small_budget_ignores_frequencies :
  max_seq_length a < 4096 ->
  (forall cw ucw fuel st,
     main E (with_freqs a cw ucw) words fuel st = main E a words fuel st)
  /\ (forall n st context query answer st',
        generate_input_output E a words n st = (inr (context, query, answer), st') ->
        exists st1 context_example answer_example list_context,
          drawn st st1 20 3 1 context_example answer_example
          /\ drawn st1 st' n 6 1 list_context answer
          /\ context = (format_context E (context_template a) context_example
                        +:+ query_template a +:+ numbered answer_example)
                       +:+ newline +:+ format_context E (context_template a) list_context).
Proof.
  intros Hlt. split.
  - intros cw ucw fuel st. unfold main, sys_word_pair_random.
    cbn [with_freqs max_seq_length num_samples].
    apply bind_ext; [now apply calibrate_ignores_frequencies|].
    intros k st1. apply bind_ext; [reflexivity|].
    intros _ st2. now apply generate_samples_ignores_frequencies.
  - intros n st context query answer st' H.
    apply generate_input_output_ok in H as (st1 & ce & ae & lc & H).
    unfold regime in H. destruct (max_seq_length a <? 4096) eqn:Hreg; [|lia].
    destruct H as (H1 & H2 & _ & Hctx). now exists st1, ce, ae, lc.
Qed.

End Proofs.

(** **** The word pool does not depend on how the set lists its words *)

#[global] Instance str_le_total : Total str_le.
Proof. intros s1 s2. apply String.leb_total. Qed.

#[global] Instance str_le_antisym : AntiSymm eq str_le.
Proof. intros s1 s2. apply String.leb_antisym. Qed.

(** [String.compare] is the comparison of [OrdersEx.String_as_OT], whose
    strict order is known to be transitive. *)
Lemma compare_spec (s1 s2 : string) :
  CompareSpec (s1 = s2) (String.compare s1 s2 = Lt) (String.compare s2 s1 = Lt)
              (String.compare s1 s2).
Proof. exact (OrdersEx.String_as_OT.compare_spec s1 s2). Qed.

Lemma compare_lt_trans (s1 s2 s3 : string) :
  String.compare s1 s2 = Lt -> String.compare s2 s3 = Lt -> String.compare s1 s3 = Lt.
Proof.
  exact (@StrictOrder_Transitive _ _ OrdersEx.String_as_OT.lt_strorder s1 s2 s3).
Qed.

#[global] Instance str_le_trans : Transitive str_le.
Proof.
  intros s1 s2 s3. unfold str_le, String.leb.
  destruct (compare_spec s1 s2) as [->|H12|_]; [auto| |intros [=]].
  destruct (compare_spec s2 s3) as [<-|H23|_]; [| |intros _ [=]].
  - intros _ _. now rewrite H12.
  - intros _ _. now rewrite (compare_lt_trans _ _ _ H12 H23).
Qed.

Lemma sorted_permutation (l1 l2 : list string) : l1 ≡ₚ l2 -> sorted l1 = sorted l2.
Proof.
  intros H. apply (Sorted_unique str_le); unfold sorted.
  - apply Sorted_merge_sort, _.
  - apply Sorted_merge_sort, _.
  - now rewrite !merge_sort_Permutation.
Qed.

(** C6. A run is a function of the seed, the flags and the libraries, and
    it does not depend on the order in which the set of words happens to be
    listed: two runs with the same seed and flags, whatever order each finds
    the set in, end the same way, in the same state, with the same records. *)
Theorem runs_with_one_seed_agree (E : Env) (a : Args) (fuel : nat)
    (enumeration1 enumeration2 : list string) :
  enumeration1 ≡ₚ enumeration2 ->
  build_words E (random_seed a) enumeration1 = build_words E (random_seed a) enumeration2
  /\ run E a enumeration1 fuel = run E a enumeration2 fuel.
Proof.
  intros H.
  assert (Hw : build_words E (random_seed a) enumeration1
               = build_words E (random_seed a) enumeration2).
  { unfold build_words. now rewrite (sorted_permutation _ _ H). }
  split; [exact Hw|]. unfold run. now rewrite Hw.
Qed.

(** *** The sample library: one token per character *)

Lemma append_length (s1 s2 : string) :
  String.length (s1 +:+ s2) = (String.length s1 + String.length s2)%nat.
Proof.
  induction s1 as [|c s1 IH]; [reflexivity|].
  change (S (String.length (s1 +:+ s2)) = S (String.length s1 + String.length s2)).
  now rewrite IH.
Qed.

Lemma char_tokens_length (s : string) : length (char_tokens s) = String.length s.
Proof.
  unfold char_tokens. rewrite length_map.
  induction s as [|c s IH]; [reflexivity|]. cbn. now rewrite IH.
Qed.

(** A query that alone is longer than what the reserve leaves of the budget
    makes every attempt fail. *)
Lemma query_beyond_budget (a : Args) (words : list string) (max_len used : Z)
    (st : state sample_env) :
  max_len < Z.of_nat (String.length (query_template a)) + tokens_to_generate a ->
  fails (attempt sample_env a words max_len used st).
Proof.
  intros Hlt. unfold fails, attempt, bind.
  destruct (generate_input_output sample_env a words used st)
    as [[f|[[c q] an]] st1] eqn:Hgen.
  - apply generate_input_output_fail in Hgen as [[msg ->] _]. now eexists.
  - destruct (token_count sample_env (c +:+ q) + tokens_to_generate a <=? max_len)
      eqn:Hfit; [|now eexists].
    apply Z.leb_le in Hfit.
    apply generate_input_output_ok in Hgen as (st2 & ce & ae & lc & Hgen).
    destruct (regime a) as [[[en ecr] eur] [cr ur]].
    destruct Hgen as (_ & _ & -> & _).
    unfold token_count in Hfit. cbn [text_to_tokens sample_env] in Hfit.
    rewrite char_tokens_length, append_length in Hfit. lia.
Qed.

(** *** The theorems at concrete command lines *)



(** C2 as stated fails.  With 30 tokens in reserve out of a budget of 10 no
    example can fit; the search is not entered and leaves 10 words, which is
    not above one increment, so the loop of the first sample tries again and
    again at 10 words: whatever the fuel, the run is cut off inside it.
    With a budget of 50 the first trial of the search overflows and leaves
    0 words; the query alone is 33 characters, more than the 20 the reserve
    leaves, and the loop of the first sample tries again and again at 0
    words. *)
Lemma sample_loop_never_gives_up :
  1 <= num_samples (sample_args 10 30)
  /\ (forall fuel,
        exists st', run sample_env (sample_args 10 30) sample_enumeration fuel
                    = (inl OutOfFuel, st'))
  /\ (exists st,
        calibrate sample_env (sample_args 50 30) sample_words 50 10 1 10 0 initial_state
        = (inr 0, st))
  /\ (forall fuel,
        exists st', run sample_env (sample_args 50 30) sample_enumeration fuel
                    = (inl OutOfFuel, st')).
Proof.
  split; [cbn; lia|]. split; [|split].
  - intros fuel. unfold run, main.
    apply sys_word_pair_random_no_exit; cbn; lia.
  - eexists. vm_compute. reflexivity.
  - intros [|fuel]; [eexists; vm_compute; reflexivity|].
    unfold run, main, sys_word_pair_random.
    change (max_seq_length (sample_args 50 30)) with 50.
    assert (Hcal : exists st,
               calibrate sample_env (sample_args 50 30)
                         (build_words sample_env (random_seed (sample_args 50 30))
                                      sample_enumeration)
                         50 10 (S fuel) 10 0
                         (State (seed sample_env (random_seed (sample_args 50 30))) [])
               = (inr 0, st)).
    { eexists. vm_compute. reflexivity. }
    destruct Hcal as [st Hcal]. rewrite (bind_inr _ _ _ _ _ Hcal).
    rewrite (bind_inr (print sample_env (NumWords 0)) _ st tt _ eq_refl).
    apply generate_samples_no_exit. intros used s.
    apply query_beyond_budget. vm_compute. reflexivity.
Qed.

(** C5 at a budget of 1000: two records, of lengths 753 and 757. *)
Lemma records_fit_the_budget_witness :
  exists rs st',
    run sample_env (sample_args 1000 30) sample_enumeration 30 = (inr rs, st')
    /\ map length_ rs = [753; 757]
    /\ Forall (fun r =>
                 length_ r <= 1000
                 /\ exists context query,
                      length_ r = token_count sample_env (context +:+ query) + 30
                      /\ token_count sample_env (context +:+ query) <= 1000 - 30
                      /\ input_context r = kept (sample_args 1000 30) context
                      /\ input_query r = kept (sample_args 1000 30) query) rs.
Proof.
  do 2 eexists. split; [vm_compute; reflexivity|]. split; [reflexivity|].
  eapply (records_fit_the_budget sample_env (sample_args 1000 30) sample_words 1000 10 30%nat 2
                                 initial_state).
  vm_compute. reflexivity.
Defined.

(** C7 at a budget of 1000, with [--num_cw 3]. *)
Lemma outputs_are_the_common_words_witness :
  exists rs st',
    run sample_env (sample_args 1000 30) sample_enumeration 30 = (inr rs, st')
    /\ map outputs rs = [["adj4"; "adj3"; "adj2"]; ["adj2"; "adj1"; "adj0"]]
    /\ Forall (fun r =>
                 exists used s s' full few_shot,
                   sample sample_env sample_words used (random s) = Some (full, random s')
                   /\ outputs r = take 3 full
                   /\ input_context r
                      = few_shot +:+ newline
                        +:+ format_context sample_env ("Words: {context}" +:+ newline)
                              (numbered
                                 (seeded_shuffle sample_env 42
                                    (list_mul (outputs r) 6
                                     ++ list_mul (drop 3 full) 1)))) rs.
Proof.
  do 2 eexists. split; [vm_compute; reflexivity|]. split; [reflexivity|].
  eapply (outputs_are_the_common_words sample_env (sample_args 1000 30) sample_words
                                       1000 10 30%nat 2 initial_state); [cbn; lia|].
  vm_compute. reflexivity.
Defined.

(** C10 at a budget of 1000: frequencies of 7 and 2 instead of 30 and 3. *)
Lemma small_budget_ignores_frequencies_witness :
  main sample_env (with_freqs (sample_args 1000 30) 7 2) sample_words 30 initial_state
  = main sample_env (sample_args 1000 30) sample_words 30 initial_state.
Proof.
  refine (proj1 (small_budget_ignores_frequencies sample_env (sample_args 1000 30)
                   sample_words _) 7 2 30%nat initial_state).
  cbn. lia.
Defined.

(** C6 with the set listed in one order and in the reverse order. *)
Lemma runs_with_one_seed_agree_witness :
  build_words sample_env 42 sample_enumeration
  = build_words sample_env 42 (rev sample_enumeration)
  /\ run sample_env (sample_args 1000 30) sample_enumeration 30
     = run sample_env (sample_args 1000 30) (rev sample_enumeration) 30.
Proof.
  apply (runs_with_one_seed_agree sample_env (sample_args 1000 30) 30%nat).
  apply Permutation_rev.
Defined.

End CommonWordsFacts.

(** * Further theorems *)

(** ** The sweep as a whole *)

Module BabilongSweep.
Import Monad Monad.Notations Py Babilong MonadFacts BabilongFacts.

Section Proofs.
Context (E : Env).

Lemma extends_refl w : extends w w.
Proof. split; exists []; now rewrite app_nil_r. Qed.

Lemma extends_trans w1 w2 w3 : extends w1 w2 -> extends w2 w3 -> extends w1 w3.
Proof.
  intros [[l1 H1] [o1 G1]] [[l2 H2] [o2 G2]]. split.
  - exists (l1 ++ l2). now rewrite H2, H1, app_assoc.
  - exists (o1 ++ o2). now rewrite G2, G1, app_assoc.
Qed.

Lemma extends_effects w l : extends w (World (effects w ++ l) (stdout w)).
Proof. split; [now exists l|exists []; now rewrite app_nil_r]. Qed.

Lemma for_each_ok {A} (body : A -> M world exn unit) l :
  (forall x w, exists w', body x w = (inr tt, w') /\ extends w w') ->
  forall w, exists w', for_each l body w = (inr tt, w') /\ extends w w'.
Proof.
  intros Hbody. induction l as [|x l IH]; intros w.
  - exists w. split; [reflexivity|apply extends_refl].
  - destruct (Hbody x w) as (w1 & Hx & H1). destruct (IH w1) as (w2 & Hl & H2).
    exists w2. cbn [for_each]. rewrite (bind_inr _ _ _ _ _ Hx).
    split; [exact Hl|now apply extends_trans with w1].
Qed.

(** With a process ceiling and a non-zero block size -- or under dense
    attention -- the launcher is computed without an error. *)
Lemma inference_executor_run attn nn np s bs w :
  (not_dense attn = true -> bs <> 0 /\ exists n, np = Some n) ->
  inference_executor attn nn np s bs w = (inr (executor_of attn nn np s bs), w).
Proof.
  intros H. unfold inference_executor, executor_of.
  destruct (not_dense attn); [|reflexivity].
  destruct H as [Hbs [n ->]]; [reflexivity|].
  unfold bind, nproc_per_node_seq_len, floordiv.
  destruct (bs =? 0) eqn:Hz; [lia|reflexivity].
Qed.

Lemma schedule_seq_length_ok model_path attn bs abs config tasks np out nn pregen sw s w :
  (not_dense attn = true -> bs <> 0 /\ exists n, np = Some n) ->
  exists w', schedule_seq_length E model_path attn bs abs config tasks np out nn pregen sw s w
             = (inr tt, w')
             /\ extends w w'.
Proof.
  intros Hexec. unfold schedule_seq_length.
  destruct (skipped attn bs abs s).
  - eexists. split; [reflexivity|]. split; [exists []|eexists]; cbn; [|reflexivity].
    now rewrite app_nil_r.
  - rewrite (bind_inr _ _ _ _ _ (inference_executor_run attn nn np s bs w Hexec)).
    unfold bind at 1, emit at 1, modify. unfold bind at 1, emit at 1, modify.
    match goal with |- context [for_each tasks ?body ?w0] =>
      destruct (for_each_ok body tasks) with (w := w0) as (w' & Hrun & Hext) end.
    + intros task w1.
      destruct (evaluate_task_run E model_path attn bs abs config
                  (executor_of attn nn np s bs) (seq_length_repr s)
                  (path_join out (seq_length_repr s))
                  (path_join (path_join out (seq_length_repr s)) "logs")
                  (path_join (path_join out (seq_length_repr s)) "data")
                  pregen sw task w1) as (gen & input & Hrun & _).
      eexists. split; [exact Hrun|]. apply extends_effects.
    + exists w'. split; [exact Hrun|].
      eapply extends_trans; [|exact Hext].
      split; cbn; [eexists|exists []; now rewrite app_nil_r].
      rewrite <- app_assoc. reflexivity.
Qed.

(** X1. A configuration that passes the validation, names a known prompt
    template and, under a non-dense attention, has a non-zero block size
    runs to completion: the script raises nothing, and the world it leaves
    is the one it found with effects and output added after it. *)
Theorem valid_configuration_runs_to_completion (a : Args) (w : world) :
  valid E a w ->
  (exists ws, PROMPT_TEMPLATES E (prompt_config a) = Some ws) ->
  (not_dense (attn_type a) = true -> block_size a <> 0) ->
  exists w', script E a w = (inr tt, w') /\ extends w w'.
Proof.
  intros (Hlen & Hbs & Hproc & Hpath & Hanchor) [ws Hws] Hzero. unfold script.
  assert (H1 : for_each (seq_lengths a)
                 (fun s => py_assert (str_in (seq_length_repr s) SPLIT_NAMES)
                             "seq_length must be one of ['16k', '32k', '64k', '128k']") w
               = (inr tt, w)).
  { pose proof (guard_for_each
                  (fun s => py_assert (str_in (seq_length_repr s) SPLIT_NAMES)
                              "seq_length must be one of ['16k', '32k', '64k', '128k']")
                  (fun s => str_in (seq_length_repr s) SPLIT_NAMES) (seq_lengths a) w
                  (fun s => guard_assert _ _ w)) as G.
    assert (Hall : forallb (fun s => str_in (seq_length_repr s) SPLIT_NAMES) (seq_lengths a)
                   = true) by (apply forallb_forall; exact Hlen).
    rewrite Hall in G. exact G. }
  rewrite (bind_inr _ _ _ _ _ H1).
  assert (H2 : (if is_star (attn_type a)
                then py_assert (0 <? block_size a) "block_size must be greater than 0"
                else ret tt) w = (inr tt, w)).
  { destruct (is_star (attn_type a)); [|reflexivity].
    unfold py_assert. destruct (0 <? block_size a) eqn:H; [reflexivity|].
    specialize (Hbs eq_refl). lia. }
  rewrite (bind_inr _ _ _ _ _ H2).
  assert (H3 : (if not_dense (attn_type a)
                then bind (py_assert match nproc_per_node a with
                                     | Some n => 0 <? n
                                     | None => false
                                     end "nproc_per_node must be greater than 0")
                          (fun _ => py_assert (0 <? num_nodes a)
                                              "num_nodes must be greater than 0")
                else ret tt) w = (inr tt, w)).
  { destruct (not_dense (attn_type a)); [|reflexivity].
    destruct (Hproc eq_refl) as (n & -> & Hn & Hnn).
    unfold bind, py_assert.
    destruct (0 <? n) eqn:H; [|lia]. destruct (0 <? num_nodes a) eqn:H'; [reflexivity|lia]. }
  rewrite (bind_inr _ _ _ _ _ H3).
  rewrite (bind_inr (exists_now E (model_path a)) _ w true w)
    by (unfold exists_now, gets; now rewrite Hpath).
  rewrite (bind_inr (ret tt) _ w tt w eq_refl).
  unfold main.
  assert (H5 : is_star (attn_type a) && (block_size a <? anchor_block_size a) = false).
  { destruct (is_star (attn_type a)); [|reflexivity].
    specialize (Hanchor eq_refl). cbn. lia. }
  rewrite H5. rewrite (bind_inr (ret tt) _ w tt w eq_refl).
  rewrite Hws. rewrite (bind_inr (ret (str_join "," ws)) _ w _ w eq_refl).
  apply for_each_ok. intros s w1. apply schedule_seq_length_ok.
  intros Hdense. split; [now apply Hzero|].
  destruct (Hproc Hdense) as (n & Hn & _). now exists n.
Qed.

(** A loop whose body only adds effects and output adds them in order. *)
Lemma for_each_trace {A} (body : A -> M world exn unit) (ev : A -> list event)
    (out : A -> list string) l :
  (forall x w, body x w = (inr tt, World (effects w ++ ev x) (stdout w ++ out x))) ->
  forall w, for_each l body w
            = (inr tt, World (effects w ++ concat (map ev l))
                             (stdout w ++ concat (map out l))).
Proof.
  intros Hbody. induction l as [|x l IH]; intros w.
  - cbn. rewrite !app_nil_r. now destruct w.
  - cbn [for_each map concat]. rewrite (bind_inr _ _ _ _ _ (Hbody x w)), IH.
    cbn [effects stdout]. now rewrite <- !app_assoc.
Qed.

Lemma evaluate_task_fresh model_path attn (bs abs : Z) config executor repr results_dir
    log_dir data_dir sw task w :
  evaluate_task E model_path attn bs abs config executor repr results_dir log_dir data_dir
                None sw task w
  = (inr tt,
     World (effects w ++ fresh_task_events E model_path attn bs abs config executor repr
                           results_dir log_dir data_dir sw task)
           (stdout w ++ [])).
Proof.
  unfold evaluate_task, fresh_task_events. cbn [pregen_file].
  cbv [bind ret]. rewrite !submit_job_run. cbn [effects stdout].
  now rewrite <- app_assoc, app_nil_r.
Qed.

Lemma schedule_seq_length_fresh model_path attn bs abs config tasks np out nn sw s w :
  (not_dense attn = true -> bs <> 0 /\ exists n, np = Some n) ->
  schedule_seq_length E model_path attn bs abs config tasks np out nn None sw s w
  = (inr tt,
     World (effects w ++ fresh_length_events E model_path attn bs abs config tasks np out nn
                           sw s)
           (stdout w ++ (if skipped attn bs abs s then [skip_message bs abs s] else []))).
Proof.
  intros Hexec. unfold schedule_seq_length, fresh_length_events.
  destruct (skipped attn bs abs s).
  - cbn. now rewrite app_nil_r.
  - rewrite (bind_inr _ _ _ _ _ (inference_executor_run attn nn np s bs w Hexec)).
    unfold bind at 1, emit at 1, modify. unfold bind at 1, emit at 1, modify.
    rewrite (for_each_trace _ _ (fun _ => []) tasks
               (fun task w1 => evaluate_task_fresh _ _ _ _ _ _ _ _ _ _ _ task w1)).
    cbn [effects stdout]. rewrite <- !app_assoc. f_equal. f_equal.
    induction tasks as [|t ts IH]; [reflexivity|exact IH].
Qed.

Lemma skip_lines attn bs abs (ls : list Z) :
  concat (map (fun s => if skipped attn bs abs s then [skip_message bs abs s] else []) ls)
  = map (skip_message bs abs) (List.filter (skipped attn bs abs) ls).
Proof.
  induction ls as [|s ls IH]; [reflexivity|]. cbn [map concat List.filter].
  destruct (skipped attn bs abs s); cbn; now rewrite IH.
Qed.

Lemma commands_app l1 l2 : commands (l1 ++ l2) = commands l1 ++ commands l2.
Proof. apply List.filter_app. Qed.

Lemma commands_fresh_length model_path attn bs abs config tasks np out nn sw s :
  length (commands (fresh_length_events E model_path attn bs abs config tasks np out nn sw s))
  = if skipped attn bs abs s then 0%nat else (2 * length tasks)%nat.
Proof.
  unfold fresh_length_events. destruct (skipped attn bs abs s); [reflexivity|].
  cbv zeta. rewrite commands_app. cbn [commands List.filter is_system app length].
  induction tasks as [|t ts IH]; [reflexivity|].
  cbn [map concat]. rewrite commands_app, length_app, IH.
  unfold fresh_task_events, job_events. cbn. lia.
Qed.

(** X2. With no directory of pre-generated data, a sweep that passes the
    ordering check of [main], knows its prompt template and can compute its
    launcher runs to completion, and what it does is fixed in advance: for
    every sequence length that is not skipped, two directories and then, task
    by task, a data-generation job and an inference job; one printed line for
    every skipped length, and nothing else.  The shell is handed two
    commands for every task of every length that is not skipped. *)
Theorem fresh_sweep_follows_the_plan model_path attn (bs abs : Z) config ls tasks np out nn
    ws w :
  is_star attn && (bs <? abs) = false ->
  PROMPT_TEMPLATES E config = Some ws ->
  (not_dense attn = true -> bs <> 0 /\ exists n, np = Some n) ->
  let plan := concat (map (fresh_length_events E model_path attn bs abs config tasks np out
                             nn (str_join "," ws)) ls) in
  main E model_path attn bs abs config ls tasks np out nn None w
  = (inr tt,
     World (effects w ++ plan)
           (stdout w ++ map (skip_message bs abs) (List.filter (skipped attn bs abs) ls)))
  /\ length (commands plan)
     = (2 * length tasks
        * length (List.filter (fun s => negb (skipped attn bs abs s)) ls))%nat.
Proof.
  intros Horder Hws Hexec plan. subst plan. split.
  - unfold main. rewrite Horder, (bind_inr (ret tt) _ w tt w eq_refl), Hws.
    rewrite (bind_inr (ret (str_join "," ws)) _ w _ w eq_refl). cbn [option_map].
    rewrite (for_each_trace _ _ _ ls
               (fun s w1 => schedule_seq_length_fresh model_path attn bs abs config tasks np
                              out nn (str_join "," ws) s w1 Hexec)).
    now rewrite skip_lines.
  - induction ls as [|s ls IH]; [cbn; lia|].
    cbn [map concat List.filter]. rewrite commands_app, length_app, IH.
    rewrite commands_fresh_length.
    destruct (skipped attn bs abs s); cbn [negb length]; lia.
Qed.

(** X3. A zero block size under an attention that is neither dense nor star
    slips through the validation and stops the sweep at its first sequence
    length with a [ZeroDivisionError], before anything is created, written,
    run or printed. *)
Theorem zero_block_size_divides_by_zero (a : Args) (w : world) s rest :
  valid E a w ->
  (exists ws, PROMPT_TEMPLATES E (prompt_config a) = Some ws) ->
  not_dense (attn_type a) = true -> block_size a = 0 ->
  seq_lengths a = s :: rest ->
  is_star (attn_type a) = false /\ script E a w = (inl ZeroDivisionError, w).
Proof.
  intros Hvalid [ws Hws] Hdense Hzero Hls.
  assert (Hstar : is_star (attn_type a) = false).
  { destruct (is_star (attn_type a)) eqn:H; [|reflexivity].
    destruct Hvalid as (_ & Hbs & _). specialize (Hbs H). lia. }
  split; [exact Hstar|].
  destruct Hvalid as (Hlen & _ & Hproc & Hpath & _). unfold script.
  assert (H1 : for_each (seq_lengths a)
                 (fun s => py_assert (str_in (seq_length_repr s) SPLIT_NAMES)
                             "seq_length must be one of ['16k', '32k', '64k', '128k']") w
               = (inr tt, w)).
  { pose proof (guard_for_each
                  (fun s => py_assert (str_in (seq_length_repr s) SPLIT_NAMES)
                              "seq_length must be one of ['16k', '32k', '64k', '128k']")
                  (fun s => str_in (seq_length_repr s) SPLIT_NAMES) (seq_lengths a) w
                  (fun s => guard_assert _ _ w)) as G.
    assert (Hall : forallb (fun s => str_in (seq_length_repr s) SPLIT_NAMES) (seq_lengths a)
                   = true) by (apply forallb_forall; exact Hlen).
    rewrite Hall in G. exact G. }
  rewrite (bind_inr _ _ _ _ _ H1). rewrite Hstar, Hdense.
  rewrite (bind_inr (ret tt) _ w tt w eq_refl).
  destruct (Hproc Hdense) as (n & Hn & Hpos & Hnn). rewrite Hn.
  assert (H3 : bind (py_assert (0 <? n) "nproc_per_node must be greater than 0")
                    (fun _ => py_assert (0 <? num_nodes a)
                                        "num_nodes must be greater than 0") w
               = (inr tt, w)).
  { unfold bind, py_assert.
    destruct (0 <? n) eqn:H; [|lia]. destruct (0 <? num_nodes a) eqn:H'; [reflexivity|lia]. }
  rewrite (bind_inr _ _ _ _ _ H3).
  rewrite (bind_inr (exists_now E (model_path a)) _ w true w)
    by (unfold exists_now, gets; now rewrite Hpath).
  rewrite (bind_inr (ret tt) _ w tt w eq_refl).
  unfold main. rewrite Hstar. cbn [andb].
  rewrite (bind_inr (ret tt) _ w tt w eq_refl), Hws.
  rewrite (bind_inr (ret (str_join "," ws)) _ w _ w eq_refl).
  rewrite Hls. cbn [for_each]. apply bind_inl.
  unfold schedule_seq_length, skipped. rewrite Hstar. cbn [andb].
  apply bind_inl. unfold inference_executor. rewrite Hdense. apply bind_inl.
  unfold nproc_per_node_seq_len, floordiv. now rewrite Hzero.
Qed.

Lemma for_each_ext {A} (f g : A -> M world exn unit) l w :
  (forall x w, f x w = g x w) -> for_each l f w = for_each l g w.
Proof.
  intros H. revert w. induction l as [|x l IH]; intros w; [reflexivity|].
  cbn [for_each]. apply bind_ext; [apply H|intros _ w'; apply IH].
Qed.

(** X4. Under dense attention the process ceiling and the node count play
    no part: whatever they are, missing or not positive, [main] ends the
    same way in the same world, every inference job launched with plain
    [python]. *)
Theorem dense_attention_ignores_process_counts model_path (bs abs : Z) config ls tasks
    out pregen np1 nn1 np2 nn2 w :
  main E model_path "dense" bs abs config ls tasks np1 out nn1 pregen w
  = main E model_path "dense" bs abs config ls tasks np2 out nn2 pregen w
  /\ forall s, inference_executor "dense" nn1 np1 s bs w = (inr "python", w).
Proof.
  split; [|reflexivity].
  unfold main. apply bind_ext; [reflexivity|]. intros _ w1.
  apply bind_ext; [reflexivity|]. intros sw w2.
  apply for_each_ext. intros s w3. reflexivity.
Qed.

(** X5. The data of a task is built only when it is not there.  When
    the file of the task under the directory of pre-generated data exists,
    the inference job reads it and no data-generation job is issued; when no
    such directory is given, or the file does not exist, a data-generation
    job is issued first and the inference job reads the file that job is to
    write under the results. *)
Theorem task_data_is_built_on_a_miss model_path attn (bs abs : Z) config executor repr
    results_dir log_dir data_dir pregen sw task w :
  let cached :=
    match pregen_file pregen repr task with
    | Some f => if path_exists E (effects w) f then Some f else None
    | None => None
    end in
  let input := default (path_join data_dir (task +:+ "_" +:+ repr +:+ ".jsonl")) cached in
  let build :=
    match cached with
    | Some _ => []
    | None => job_events E (data_gen_cmd E data_dir task repr config)
                         (path_join log_dir task) "data_generation.sh"
    end in
  evaluate_task E model_path attn bs abs config executor repr results_dir log_dir data_dir
                pregen sw task w
  = (inr tt,
     World (effects w ++ build
            ++ job_events E (task_gen_cmd executor model_path attn bs abs input results_dir
                                          task sw)
                          (path_join log_dir task) "generate_predictions.sh")
           (stdout w)).
Proof.
  cbv zeta. unfold evaluate_task.
  destruct (pregen_file pregen repr task) as [f|].
  - cbv [bind exists_now gets ret]. destruct (path_exists E (effects w) f).
    + rewrite submit_job_run. reflexivity.
    + rewrite !submit_job_run. cbn [effects stdout default]. now rewrite <- app_assoc.
  - cbv [bind ret]. rewrite !submit_job_run. cbn [effects stdout default].
    now rewrite <- app_assoc.
Qed.

End Proofs.

Lemma append_k_inj (s1 s2 : string) : s1 +:+ "k" = s2 +:+ "k" -> s1 = s2.
Proof.
  revert s2. induction s1 as [|c s1 IH]; intros [|d s2] H.
  - reflexivity.
  - injection H as _ H. destruct s2; discriminate.
  - injection H as _ H. destruct s1; discriminate.
  - injection H as -> H. f_equal. now apply IH.
Qed.

Lemma seq_length_repr_is (s q : Z) :
  seq_length_repr s = str_of_int q +:+ "k" <-> 1024 * q <= s < 1024 * (q + 1).
Proof.
  unfold seq_length_repr, str_of_int.
  pose proof (Z.div_mod s 1024 ltac:(lia)) as Hdm.
  pose proof (Z.mod_pos_bound s 1024 ltac:(lia)) as Hmod.
  split.
  - intros H. apply append_k_inj in H. apply (inj pretty) in H. lia.
  - intros H. assert (Hq : s `div` 1024 = q) by nia. now rewrite Hq.
Qed.

(** X6. The validation of the sequence lengths looks at the length in
    units of 1024 only: a length passes exactly when it lies in one of the
    four windows of 1024 tokens that start at 16384, 32768, 65536 and
    131072 -- the powers of two themselves and every length less than 1024
    above them. *)
Theorem accepted_sequence_lengths (s : Z) :
  str_in (seq_length_repr s) SPLIT_NAMES = true
  <-> 16384 <= s < 17408 \/ 32768 <= s < 33792 \/ 65536 <= s < 66560
      \/ 131072 <= s < 132096.
Proof.
  unfold str_in, SPLIT_NAMES. cbn [existsb]. rewrite !orb_true_iff, !String.eqb_eq.
  change "16k" with (str_of_int 16 +:+ "k"). change "32k" with (str_of_int 32 +:+ "k").
  change "64k" with (str_of_int 64 +:+ "k"). change "128k" with (str_of_int 128 +:+ "k").
  rewrite !seq_length_repr_is. intuition lia.
Qed.

(** *** The sweep at concrete command lines *)

(** X1 at star attention with blocks and anchors of 4096 over 16384
    tokens. *)
Lemma valid_configuration_runs_to_completion_witness :
  exists w', script sample_env star_4k empty_world = (inr tt, w')
             /\ extends empty_world w'.
Proof.
  apply valid_configuration_runs_to_completion.
  - split; [|split; [|split; [|split]]].
    + intros s [<-|[]]. reflexivity.
    + intros _. vm_compute. reflexivity.
    + intros _. exists 8. repeat split; vm_compute; reflexivity.
    + reflexivity.
    + intros _. cbv [star_4k sample_args anchor_block_size block_size]. lia.
  - eexists. reflexivity.
  - intros _. cbv [star_4k sample_args block_size]. lia.
Defined.

(** X2 at ring attention with blocks of 4096 over 16384 and 32768 tokens,
    two tasks. *)
Lemma fresh_sweep_follows_the_plan_witness :
  length (commands
            (concat (map (fresh_length_events sample_env "/models/llama3" "ring" 4096 (-1)
                            "llama3" ["qa1"; "qa2"] (Some 8) "/results" 1
                            (str_join "," ["<|eot_id|>"; "<|end_of_text|>"]))
                         [16384; 32768])))
  = (2 * 2 * 2)%nat.
Proof.
  refine (proj2 (fresh_sweep_follows_the_plan sample_env "/models/llama3" "ring" 4096 (-1)
                   "llama3" [16384; 32768] ["qa1"; "qa2"] (Some 8) "/results" 1
                   ["<|eot_id|>"; "<|end_of_text|>"] empty_world eq_refl eq_refl _)).
  intros _. split; [lia|now exists 8].
Defined.

(** X3 at ring attention with a block size of 0. *)
Lemma zero_block_size_divides_by_zero_witness :
  is_star "ring" = false
  /\ script sample_env (sample_args "ring" 0 (-1) 16384) empty_world
     = (inl ZeroDivisionError, empty_world).
Proof.
  apply (zero_block_size_divides_by_zero sample_env (sample_args "ring" 0 (-1) 16384)
           empty_world 16384 []).
  - split; [|split; [|split; [|split]]].
    + intros s [<-|[]]. reflexivity.
    + intros [=].
    + intros _. exists 8. repeat split; vm_compute; reflexivity.
    + reflexivity.
    + intros [=].
  - eexists. reflexivity.
  - reflexivity.
  - reflexivity.
  - reflexivity.
Defined.

End BabilongSweep.

(** ** The runs of the generator *)

Module CommonWordsRuns.
Import Monad Monad.Notations Py CommonWords MonadFacts CommonWordsFacts.

Section Proofs.
Context (E : Env) (a : Args) (words : list string) (max_len incremental : Z).

Local Abbreviation retry_state := (CommonWords.retry_state E a words max_len incremental).
Local Abbreviation trial_line := (CommonWords.trial_line max_len).
Local Abbreviation search := (CommonWords.search a words max_len incremental).
Local Abbreviation kept := (CommonWords.kept a).

(** X7. The dataset has one record for every index of
    [range(num_samples)], in order: the indices count up from 0, and a
    [num_samples] of zero or less gives no record at all. *)
Theorem records_follow_the_indices fuel n st rs st' :
  sys_word_pair_random E a words max_len incremental fuel n st = (inr rs, st') ->
  map index rs = map Z.of_nat (seq 0 (Z.to_nat n))
  /\ length rs = Z.to_nat n
  /\ (n <= 0 -> rs = []).
Proof.
  intros H. apply sys_word_pair_random_ok in H as [Hidx _]. unfold range in Hidx.
  assert (Hlen : length rs = Z.to_nat n).
  { rewrite <- (length_map index rs), Hidx, length_map. apply length_seq. }
  repeat split; [exact Hidx|exact Hlen|].
  intros Hn. destruct rs; [reflexivity|]. cbn in Hlen. lia.
Qed.

(** Whatever the fuel, a count returned by the search was reached in one of
    the ways of [search], and the progress lines are its trials. *)
Lemma calibrate_ok fuel num_words total st k st' :
  calibrate E a words max_len incremental fuel num_words total st = (inr k, st') ->
  exists trials,
    search num_words total trials k
    /\ printed st' = printed st ++ map trial_line trials.
Proof.
  revert num_words total st. induction fuel as [|fuel IH]; intros nw total st;
    cbn [calibrate]; destruct (total + tokens_to_generate a <? max_len) eqn:Hloop.
  - discriminate.
  - intros [= <- <-]. exists []. split; [apply search_done; lia|now rewrite app_nil_r].
  - intros H. apply Z.ltb_lt in Hloop.
    apply bind_ok in H as ([[c q] an] & st1 & Hgen & H).
    apply generate_input_output_printed in Hgen.
    apply bind_ok in H as ([] & st2 & Hprint & H).
    injection Hprint as <-.
    set (cur := token_count E (c +:+ q +:+ " " +:+ numbered an) + tokens_to_generate a) in *.
    destruct (max_len <? cur) eqn:Hover.
    { injection H as <- <-. exists [(nw, cur)]. split; [apply search_overflow; lia|].
      cbn. now rewrite Hgen. }
    destruct (Z.of_nat (length words) <? nw + incremental) eqn:Hcap.
    { injection H as <- <-. exists [(nw, cur)]. split; [apply search_cap; lia|].
      cbn. now rewrite Hgen. }
    apply IH in H as (trials & Hsearch & Hprinted).
    exists ((nw, cur) :: trials). split.
    + apply search_grow; try lia.
      replace (cur - tokens_to_generate a)
        with (token_count E (c +:+ q +:+ " " +:+ numbered an)) by (unfold cur; lia).
      exact Hsearch.
    + rewrite Hprinted. cbn. now rewrite Hgen, <- app_assoc.
  - intros [= <- <-]. exists []. split; [apply search_done; lia|now rewrite app_nil_r].
Qed.

Lemma search_bounds num_words total trials k :
  0 < incremental ->
  search num_words total trials k ->
  (exists j, 1 <= j /\ num_words = j * incremental) ->
  k <= Z.max num_words (Z.of_nat (length words))
  /\ (k = Z.of_nat (length words) \/ exists j, 0 <= j /\ k = j * incremental).
Proof.
  intros Hinc. induction 1 as [nw total Hend|nw total cur Hloop Hover|nw total cur Hloop Hfit Hcap
                 |nw total cur trials k Hloop Hfit Hroom Hrest IH]; intros (j & Hj & Hnw).
  - split; [lia|]. right. exists j. split; [lia|exact Hnw].
  - split; [lia|]. right. exists (j - 1). split; [lia|]. rewrite Hnw. lia.
  - split; [lia|]. now left.
  - destruct IH as [Hle Hshape].
    + exists (j + 1). split; [lia|]. rewrite Hnw. lia.
    + split; [lia|exact Hshape].
Qed.

(** X8. With a positive increment, the count the search returns is never
    negative and never beyond the larger of one increment and the size of
    the word pool; it is the size of the pool or a multiple of the
    increment. *)
Theorem calibrated_count_is_within_the_pool fuel st k st' :
  0 < incremental ->
  calibrate E a words max_len incremental fuel incremental 0 st = (inr k, st') ->
  0 <= k <= Z.max incremental (Z.of_nat (length words))
  /\ (k = Z.of_nat (length words) \/ exists j, 0 <= j /\ k = j * incremental).
Proof.
  intros Hinc H. apply calibrate_ok in H as (trials & Hsearch & _).
  destruct (search_bounds _ _ _ _ Hinc Hsearch) as [Hle Hshape].
  { exists 1. split; lia. }
  split; [|exact Hshape]. split; [|exact Hle].
  destruct Hshape as [->|(j & Hj & ->)]; nia.
Qed.

(** An attempt prints nothing, however it ends. *)
Lemma attempt_printed used st r st' :
  attempt E a words max_len used st = (r, st') -> printed st' = printed st.
Proof.
  unfold attempt, bind.
  destruct (generate_input_output E a words used st) as [[f|[[c q] an]] st1] eqn:Hgen.
  - intros [= <- <-]. now apply generate_input_output_fail in Hgen.
  - apply generate_input_output_printed in Hgen.
    destruct (_ <=? _); intros [= <- <-]; exact Hgen.
Qed.

Lemma sample_loop_printed fuel used st r st' :
  sample_loop E a words max_len incremental fuel used st = (r, st') ->
  printed st' = printed st.
Proof.
  revert used st r st'. induction fuel as [|fuel IH]; intros used st r st'.
  - now intros [= <- <-].
  - cbn [sample_loop].
    destruct (attempt E a words max_len used st) as [[[e|]|x] st1] eqn:Hat;
      apply attempt_printed in Hat.
    + intros H. apply IH in H. congruence.
    + now intros [= <- <-].
    + now intros [= <- <-].
Qed.

Lemma generate_samples_printed fuel num_words indices st r st' :
  generate_samples E a words max_len incremental fuel num_words indices st = (r, st') ->
  printed st' = printed st.
Proof.
  revert st r st'. induction indices as [|i indices IH]; intros st r st'.
  - now intros [= <- <-].
  - cbn [generate_samples]. unfold bind at 1, generate_sample, bind at 1.
    destruct (sample_loop E a words max_len incremental fuel num_words st)
      as [[f|[[[c q] an] len]] st1] eqn:Hloop; apply sample_loop_printed in Hloop.
    + now intros [= <- <-].
    + cbn [ret]. unfold bind.
      destruct (generate_samples E a words max_len incremental fuel num_words indices st1)
        as [[f|rs] st2] eqn:Hrest; apply IH in Hrest; intros [= <- <-]; congruence.
Qed.

(** X9. A run that returns its records has printed the progress line of
    every trial of the search, then the line of the count it settled on, and
    nothing more: the sampling loop prints nothing, however many attempts
    it makes. *)
Theorem output_is_the_search_then_the_count fuel n st rs st' :
  sys_word_pair_random E a words max_len incremental fuel n st = (inr rs, st') ->
  exists trials k,
    search incremental 0 trials k
    /\ printed st' = printed st ++ map trial_line trials ++ [NumWords k].
Proof.
  unfold sys_word_pair_random. intros H.
  apply bind_ok in H as (k & st1 & Hcal & H).
  apply bind_ok in H as ([] & st2 & Hprint & H).
  injection Hprint as <-.
  apply calibrate_ok in Hcal as (trials & Hsearch & Hprinted).
  apply generate_samples_printed in H. cbn [printed] in H.
  exists trials, k. split; [exact Hsearch|].
  now rewrite H, Hprinted, <- app_assoc.
Qed.

Lemma shrink_iter_facts (n : nat) (used : Z) :
  0 <= incremental ->
  Nat.iter n (shrink incremental) used <= used
  /\ (1 <= used -> 1 <= Nat.iter n (shrink incremental) used)
  /\ (used <= incremental -> Nat.iter n (shrink incremental) used = used).
Proof.
  intros Hinc. induction n as [|n (Hle & Hpos & Hfix)]; [cbn; repeat split; lia|].
  change (Nat.iter (S n) (shrink incremental) used)
    with (shrink incremental (Nat.iter n (shrink incremental) used)).
  generalize dependent (Nat.iter n (shrink incremental) used).
  intros y Hle Hpos Hfix. unfold shrink.
  destruct (incremental <? y) eqn:H;
    [apply Z.ltb_lt in H|apply Z.ltb_ge in H];
    (split; [lia|split; intros Hu; [specialize (Hpos Hu)|specialize (Hfix Hu)]; lia]).
Qed.

Lemma shrink_iter_reaches_floor (n : nat) (used : Z) :
  0 < incremental -> used - incremental <= Z.of_nat n * incremental ->
  Nat.iter n (shrink incremental) used <= incremental.
Proof.
  intros Hinc. revert used. induction n as [|n IH]; intros used Hn; [cbn in *; lia|].
  rewrite Nat.iter_succ_r. apply IH. unfold shrink.
  destruct (incremental <? used) eqn:H; lia.
Qed.

(** X10. With a non-negative increment the item count of the per-sample
    loop never grows from one attempt to the next, never leaves the positive
    numbers once it is there, and does not move at all once it is at most
    one increment; with a positive increment it is at most one increment
    after [(used - incremental) / incremental] failed attempts, and from
    then on every attempt is made with the same count. *)
Theorem retry_counts_settle_at_the_floor (n : nat) (used : Z) (st : state E) :
  0 <= incremental ->
  fst (retry_state n used st) <= used
  /\ (1 <= used -> 1 <= fst (retry_state n used st))
  /\ (used <= incremental -> fst (retry_state n used st) = used)
  /\ (0 < incremental -> used - incremental <= Z.of_nat n * incremental ->
      fst (retry_state n used st) <= incremental
      /\ forall m, fst (retry_state (n + m) used st) = fst (retry_state n used st)).
Proof.
  intros Hinc. rewrite shrink_iter.
  destruct (shrink_iter_facts n used Hinc) as (Hle & Hpos & Hfix).
  split; [exact Hle|]. split; [exact Hpos|]. split; [exact Hfix|].
  intros Hstep Hn.
  pose proof (shrink_iter_reaches_floor n used Hstep Hn) as Hfloor.
  split; [exact Hfloor|].
  intros m. rewrite !shrink_iter, Nat.add_comm, Nat.iter_add.
  now apply shrink_iter_facts.
Qed.

(** **** Collapsed white space *)

Lemma flush_word (cur : list ascii) :
  Forall (fun c => is_space c = false) cur ->
  Forall is_word match cur with
                 | [] => []
                 | _ => [string_of_list_ascii (rev cur)]
                 end.
Proof.
  intros H. destruct cur as [|c cur]; constructor; [|constructor].
  split.
  - intros Hempty. apply (f_equal list_ascii_of_string) in Hempty.
    rewrite list_ascii_of_string_of_list_ascii in Hempty. cbn in Hempty.
    now destruct (rev cur).
  - rewrite list_ascii_of_string_of_list_ascii. now apply Forall_rev.
Qed.

Lemma split_ws_go_words (s : string) (cur : list ascii) :
  Forall (fun c => is_space c = false) cur -> Forall is_word (split_ws_go cur s).
Proof.
  revert cur. induction s as [|c s IH]; intros cur Hcur; cbn [split_ws_go].
  - now apply flush_word.
  - destruct (is_space c) eqn:Hc.
    + apply Forall_app. split; [now apply flush_word|]. apply IH. constructor.
    + apply IH. now constructor.
Qed.

Lemma collapse_whitespace_tidy (s : string) : tidy (collapse_whitespace s).
Proof.
  unfold tidy, collapse_whitespace. eexists. split; [reflexivity|].
  apply split_ws_go_words. constructor.
Qed.

Lemma chars_append (s1 s2 : string) :
  list_ascii_of_string (s1 +:+ s2) = list_ascii_of_string s1 ++ list_ascii_of_string s2.
Proof.
  induction s1 as [|c s1 IH]; [reflexivity|].
  change (c :: list_ascii_of_string (s1 +:+ s2)
          = c :: (list_ascii_of_string s1 ++ list_ascii_of_string s2)).
  now rewrite IH.
Qed.

Lemma tidy_only_plain_spaces (s : string) : tidy s -> only_plain_spaces s.
Proof.
  intros (ws & -> & Hws). unfold only_plain_spaces, str_join.
  induction Hws as [|w ws [_ Hw] Hws IH]; [constructor|].
  assert (Hword : Forall (fun c => is_space c = true -> c = " "%char)
                         (list_ascii_of_string w)).
  { eapply Forall_impl; [exact Hw|]. cbn beta. intros c Hc Hs. congruence. }
  destruct ws as [|w' ws]; [exact Hword|].
  change (String.concat " " (w :: w' :: ws))
    with (w +:+ " " +:+ String.concat " " (w' :: ws)).
  rewrite !chars_append. apply Forall_app. split; [exact Hword|].
  apply Forall_app. split; [|exact IH]. now repeat constructor.
Qed.


(** **** A pool smaller than the few-shot example *)

(** X12. When [random.sample] refuses draws larger than the population
    and the word pool has fewer words than the few-shot example of the
    regime takes (20 below a budget of 4096, 40 from there on), no text can
    be generated: every call raises [ValueError] and leaves the state as it
    was, and a run whose budget lets the search start stops on that error
    at its first trial, nothing printed. *)
Theorem pool_below_the_example_size :
  refuses_large_draws E ->
  Z.of_nat (length words) < (if max_seq_length a <? 4096 then 20 else 40) ->
  (forall n st, exists msg,
      generate_input_output E a words n st = (inl (Exception (ValueError msg)), st))
  /\ (tokens_to_generate a < max_len ->
      forall fuel n st, exists msg,
        sys_word_pair_random E a words max_len incremental (S fuel) n st
        = (inl (Exception (ValueError msg)), st)).
Proof.
  intros Hrefuse Hsmall.
  assert (Hgen : forall n st, exists msg,
             generate_input_output E a words n st
             = (inl (Exception (ValueError msg)), st)).
  { intros n st. eexists. unfold generate_input_output. apply bind_inl.
    destruct (max_seq_length a <? 4096); apply bind_inl;
      unfold get_example; apply bind_inl; unfold random_sample;
      rewrite (Hrefuse _ _ _ Hsmall); reflexivity. }
  split; [exact Hgen|].
  intros Hbudget fuel n st. destruct (Hgen incremental st) as [msg Hfail].
  exists msg. unfold sys_word_pair_random. apply bind_inl. cbn [calibrate].
  destruct (0 + tokens_to_generate a <? max_len) eqn:H; [|lia].
  now apply bind_inl.
Qed.

End Proofs.

(** **** The word pool *)

(** X13. When the seeded shuffle only reorders, the word pool built from
    a listing of the set of corpus words holds every word of the three word
    lists, each once, and nothing else. *)
Theorem word_pool_lists_the_corpus_once (E : Env) (n : Z) (enumeration : list string) :
  shuffle_reorders E ->
  NoDup enumeration ->
  (forall x, x ∈ enumeration <-> x ∈ corpus E) ->
  NoDup (build_words E n enumeration)
  /\ (forall x, x ∈ build_words E n enumeration <-> x ∈ corpus E)
  /\ length (build_words E n enumeration) = length enumeration.
Proof.
  intros Hshuffle Hnodup Hlist.
  assert (Hperm : build_words E n enumeration ≡ₚ enumeration).
  { unfold build_words, sorted. rewrite (Hshuffle n _). apply merge_sort_Permutation. }
  split; [now rewrite Hperm|]. split.
  - intros x. now rewrite Hperm.
  - now rewrite Hperm.
Qed.

(** **** What the collapsing of white space amounts to *)

Lemma split_ws_go_replace (a b : ascii) (s : string) (cur : list ascii) :
  is_space a = true -> is_space b = true ->
  split_ws_go cur (replace_char a b s) = split_ws_go cur s.
Proof.
  intros Ha Hb. revert cur. induction s as [|c s IH]; intros cur; [reflexivity|].
  cbn [replace_char split_ws_go]. destruct (Ascii.eqb_spec c a) as [->|Hne].
  - rewrite Ha, Hb. now rewrite IH.
  - destruct (is_space c); now rewrite IH.
Qed.

Lemma split_ws_go_lstrip (s : string) : split_ws_go [] (lstrip s) = split_ws_go [] s.
Proof.
  induction s as [|c s IH]; [reflexivity|]. cbn [lstrip].
  destruct (is_space c) eqn:Hc; [|reflexivity].
  cbn [split_ws_go]. now rewrite Hc.
Qed.

Lemma split_ws_go_spaces (sp : list ascii) (cur : list ascii) :
  Forall (fun c => is_space c = true) sp ->
  split_ws_go cur (string_of_list_ascii sp)
  = match cur with [] => [] | _ => [string_of_list_ascii (rev cur)] end.
Proof.
  intros H. revert cur. induction H as [|c sp Hc Hsp IH]; intros cur; [reflexivity|].
  cbn [string_of_list_ascii split_ws_go]. rewrite Hc, (IH []). apply app_nil_r.
Qed.

Lemma split_ws_go_trailing (x : string) (sp cur : list ascii) :
  Forall (fun c => is_space c = true) sp ->
  split_ws_go cur (x +:+ string_of_list_ascii sp) = split_ws_go cur x.
Proof.
  intros Hsp. revert cur. induction x as [|c x IH]; intros cur.
  - now apply split_ws_go_spaces.
  - change (String c x +:+ string_of_list_ascii sp)
      with (String c (x +:+ string_of_list_ascii sp)).
    cbn [split_ws_go]. destruct (is_space c); now rewrite IH.
Qed.

Lemma lstrip_leading (s : string) :
  exists sp, Forall (fun c => is_space c = true) sp
             /\ list_ascii_of_string s = sp ++ list_ascii_of_string (lstrip s).
Proof.
  induction s as [|c s (sp & Hsp & IH)]; [now exists []|].
  cbn [lstrip]. destruct (is_space c) eqn:Hc.
  - exists (c :: sp). split; [now constructor|]. cbn. now rewrite IH.
  - now exists [].
Qed.

Lemma string_of_app (l1 l2 : list ascii) :
  string_of_list_ascii (l1 ++ l2) = string_of_list_ascii l1 +:+ string_of_list_ascii l2.
Proof.
  induction l1 as [|c l1 IH]; [reflexivity|].
  change (String c (string_of_list_ascii (l1 ++ l2))
          = String c (string_of_list_ascii l1 +:+ string_of_list_ascii l2)).
  now rewrite IH.
Qed.

Lemma split_ws_strip (s : string) : split_ws (strip s) = split_ws s.
Proof.
  unfold split_ws, strip. rewrite <- (split_ws_go_lstrip s).
  set (t := lstrip s).
  destruct (lstrip_leading (str_rev t)) as (sp & Hsp & Hlead).
  unfold str_rev at 1 in Hlead. rewrite list_ascii_of_string_of_list_ascii in Hlead.
  assert (Ht : t = str_rev (lstrip (str_rev t)) +:+ string_of_list_ascii (rev sp)).
  { rewrite <- (string_of_list_ascii_of_string t) at 1.
    rewrite <- (rev_involutive (list_ascii_of_string t)), Hlead, rev_app_distr.
    now rewrite string_of_app. }
  rewrite Ht at 2. symmetry. apply split_ws_go_trailing. now apply Forall_rev.
Qed.

Lemma split_ws_go_word (w rest : string) (cur : list ascii) :
  Forall (fun c => is_space c = false) (list_ascii_of_string w) ->
  split_ws_go cur (w +:+ rest) = split_ws_go (rev (list_ascii_of_string w) ++ cur) rest.
Proof.
  revert cur. induction w as [|c w IH]; intros cur Hw; [reflexivity|].
  change (String c w +:+ rest) with (String c (w +:+ rest)).
  cbn [split_ws_go list_ascii_of_string rev]. inversion Hw as [|? ? Hc Hw']; subst.
  rewrite Hc, IH by exact Hw'. now rewrite <- app_assoc.
Qed.

Lemma append_empty_r (s : string) : s +:+ "" = s.
Proof.
  induction s as [|c s IH]; [reflexivity|].
  change (String c (s +:+ "") = String c s). now rewrite IH.
Qed.

Lemma split_ws_join (ws : list string) :
  Forall is_word ws -> split_ws (str_join " " ws) = ws.
Proof.
  unfold split_ws, str_join.
  induction 1 as [|w ws [Hne Hw] Hws IH]; [reflexivity|].
  assert (Hflush : match rev (list_ascii_of_string w) ++ [] with
                   | [] => []
                   | _ => [string_of_list_ascii (rev (rev (list_ascii_of_string w) ++ []))]
                   end = [w]).
  { rewrite app_nil_r, rev_involutive, string_of_list_ascii_of_string.
    destruct w as [|c w]; [contradiction|]. cbn [list_ascii_of_string rev].
    now destruct (rev (list_ascii_of_string w)). }
  destruct ws as [|w' ws].
  - cbn [String.concat].
    replace (split_ws_go [] w) with (split_ws_go [] (w +:+ ""))
      by now rewrite append_empty_r.
    rewrite split_ws_go_word by exact Hw. exact Hflush.
  - change (String.concat " " (w :: w' :: ws))
      with (w +:+ String " " (String.concat " " (w' :: ws))).
    rewrite split_ws_go_word by exact Hw. cbn [split_ws_go]. 
    change (is_space " ") with true. cbv iota. rewrite Hflush, IH. reflexivity.
Qed.


End CommonWordsRuns.


(** ** The trail a sweep leaves *)

Module BabilongTrail.
Import Monad Monad.Notations Py Babilong MonadFacts BabilongFacts.

Section Proofs.
Context (E : Env).

Lemma audited_app l1 l2 : audited E l1 -> audited E l2 -> audited E (l1 ++ l2).
Proof. induction 1; cbn; auto using audited_dir, audited_job. Qed.

Lemma audited_job_events cmd log_dir filename : audited E (job_events E cmd log_dir filename).
Proof. unfold job_events. apply audited_dir, audited_job, audited_nil. Qed.

Section Shape.
Context (Q : list event -> Prop).
Hypothesis Q_nil : Q [].
Hypothesis Q_app : forall l1 l2, Q l1 -> Q l2 -> Q (l1 ++ l2).

Lemma adds_nothing w w' : effects w' = effects w -> adds Q w w'.
Proof. intros H. exists []. split; [now rewrite app_nil_r|exact Q_nil]. Qed.

Lemma adds_refl w : adds Q w w.
Proof. now apply adds_nothing. Qed.

Lemma adds_trans w1 w2 w3 : adds Q w1 w2 -> adds Q w2 w3 -> adds Q w1 w3.
Proof.
  intros (l1 & H1 & Q1) (l2 & H2 & Q2). exists (l1 ++ l2).
  split; [now rewrite H2, H1, app_assoc|now apply Q_app].
Qed.

Lemma for_each_adds {A} (body : A -> M world exn unit) l :
  (forall x w r w', In x l -> body x w = (r, w') -> adds Q w w') ->
  forall w r w', for_each l body w = (r, w') -> adds Q w w'.
Proof.
  induction l as [|x l IH]; intros Hbody w r w' H.
  - injection H as <- <-. apply adds_refl.
  - cbn [for_each] in H. unfold bind in H.
    destruct (body x w) as [[e|[]] w1] eqn:Hx.
    + injection H as <- <-. eapply Hbody; [now left|exact Hx].
    + apply adds_trans with w1; [eapply Hbody; [now left|exact Hx]|].
      eapply IH; [|exact H]. intros y w2 r2 w3 Hy. apply Hbody. now right.
Qed.

(** The effects of [main] are made of the two directories of every length
    that is not skipped and of the jobs of its tasks. *)
Lemma main_adds model_path attn (bs abs : Z) config ls tasks np out nn pregen w r w' :
  (forall s, In s ls ->
     let results_dir := path_join out (seq_length_repr s) in
     Q [MakeDirs (path_join results_dir "logs"); MakeDirs (path_join results_dir "data")]
     /\ forall task cmd filename,
          In task tasks ->
          (filename = "data_generation.sh" \/ filename = "generate_predictions.sh") ->
          Q (job_events E cmd (path_join (path_join results_dir "logs") task) filename)) ->
  main E model_path attn bs abs config ls tasks np out nn pregen w = (r, w') ->
  adds Q w w'.
Proof.
  intros Hshape. unfold main, bind at 1.
  destruct (is_star attn && (bs <? abs)).
  { intros [= <- <-]. apply adds_refl. }
  cbn [ret]. unfold bind at 1.
  destruct (PROMPT_TEMPLATES E config) as [ws|].
  2:{ intros [= <- <-]. apply adds_refl. }
  cbn [ret]. apply for_each_adds. clear w r w'. intros s w r w' Hs.
  destruct (Hshape s Hs) as [Hdirs Hjobs]. cbv zeta in Hdirs, Hjobs.
  unfold schedule_seq_length.
  destruct (skipped attn bs abs s).
  { intros [= <- <-]. now apply adds_nothing. }
  unfold bind at 1.
  destruct (inference_executor attn nn np s bs w) as [[e|exe] w1] eqn:Hexe.
  { intros [= <- <-]. unfold inference_executor in Hexe.
    destruct (not_dense attn); [|discriminate].
    unfold bind, nproc_per_node_seq_len in Hexe.
    destruct (floordiv s bs); [destruct np|]; injection Hexe as _ <-; apply adds_refl. }
  assert (w1 = w) as ->.
  { unfold inference_executor in Hexe. destruct (not_dense attn); [|now injection Hexe].
    unfold bind, nproc_per_node_seq_len in Hexe.
    destruct (floordiv s bs); [destruct np|]; now injection Hexe. }
  unfold bind at 1, emit at 1, modify. unfold bind at 1, emit at 1, modify.
  intros H. match type of H with for_each _ _ ?w0 = _ => apply adds_trans with w0 end.
  { exists [MakeDirs (path_join (path_join out (seq_length_repr s)) "logs");
            MakeDirs (path_join (path_join out (seq_length_repr s)) "data")].
    split; [|exact Hdirs]. cbn [effects]. rewrite <- app_assoc. reflexivity. }
  eapply for_each_adds; [|exact H]. cbn beta.
  intros task w2 r2 w3 Htask Hrun.
  match type of Hrun with
  | evaluate_task _ ?mp ?at' ?b ?ab ?cf ?ex ?rp ?rd ?ld ?dd ?pg ?sw ?t ?w0 = _ =>
      destruct (evaluate_task_run E mp at' b ab cf ex rp rd ld dd pg sw t w0)
        as (gen & input & Heq & Hgen)
  end.
  rewrite Heq in Hrun. injection Hrun as _ <-. eexists.
  split; [reflexivity|]. apply Q_app; [|apply Hjobs; auto].
  destruct Hgen as [->| ->]; [exact Q_nil|apply Hjobs; auto].
Qed.

End Shape.

(** X15. Whatever a sweep does and however it ends, every command it
    hands to the shell comes right after the file that records it, word for
    word, behind [cd BASE_DIR;], and every record written is followed by
    its command: nothing is run unrecorded, nothing recorded is left
    unrun. *)
Theorem every_command_is_recorded_first model_path attn (bs abs : Z) config ls tasks np
    out nn pregen w :
  exists l,
    effects (snd (main E model_path attn bs abs config ls tasks np out nn pregen w))
    = effects w ++ l
    /\ audited E l.
Proof.
  destruct (main E model_path attn bs abs config ls tasks np out nn pregen w)
    as [r w'] eqn:Hrun.
  apply (main_adds (audited E) (audited_nil E) audited_app) in Hrun; [exact Hrun|].
  intros s _. cbv zeta. split.
  - apply audited_dir, audited_dir, audited_nil.
  - intros task cmd filename _ _. apply audited_job_events.
Qed.

Lemma under_refl dir : under dir dir.
Proof. exists "". symmetry. clear. induction dir as [|c d IH]; [reflexivity|].
  change (String c (d +:+ "") = String c d). now rewrite IH.
Qed.

Lemma under_join dir name :
  starts_with_char "/" name = false -> under dir (path_join dir name).
Proof.
  intros H. unfold path_join. rewrite H.
  destruct (String.eqb dir "" || ends_with_char "/" dir); eexists; reflexivity.
Qed.

Lemma under_trans d1 d2 d3 : under d1 d2 -> under d2 d3 -> under d1 d3.
Proof.
  intros [r1 ->] [r2 ->]. exists (r1 +:+ r2). apply append_assoc.
Qed.

Lemma split_name_is_relative name :
  str_in name SPLIT_NAMES = true -> starts_with_char "/" name = false.
Proof.
  unfold str_in, SPLIT_NAMES. cbn [existsb]. rewrite !orb_true_iff, !String.eqb_eq.
  intros H. repeat destruct H as [H|H]; subst; try reflexivity. discriminate.
Qed.

Lemma task_name_is_relative task : In task TASKS -> starts_with_char "/" task = false.
Proof. intros [<-|[<-|[<-|[<-|[<-|[]]]]]]; reflexivity. Qed.

(** X16. When every sequence length passes the validation and every task
    is one of [TASKS], a sweep makes directories and writes files under its
    output directory only, whatever it does and however it ends. *)
Theorem files_stay_under_the_output_directory model_path attn (bs abs : Z) config ls tasks
    np out nn pregen w :
  (forall s, In s ls -> str_in (seq_length_repr s) SPLIT_NAMES = true) ->
  (forall task, In task tasks -> In task TASKS) ->
  exists l,
    effects (snd (main E model_path attn bs abs config ls tasks np out nn pregen w))
    = effects w ++ l
    /\ Forall (stays_under out) l.
Proof.
  intros Hls Htasks.
  destruct (main E model_path attn bs abs config ls tasks np out nn pregen w)
    as [r w'] eqn:Hrun.
  apply (main_adds (Forall (stays_under out))) in Hrun; [exact Hrun|constructor| |].
  { intros l1 l2 H1 H2. apply Forall_app. now split. }
  intros s Hs. cbv zeta.
  assert (Hresults : under out (path_join out (seq_length_repr s))).
  { apply under_join, split_name_is_relative, Hls, Hs. }
  assert (Hlogs : under out (path_join (path_join out (seq_length_repr s)) "logs")).
  { eapply under_trans; [exact Hresults|now apply under_join]. }
  split.
  - repeat constructor; [exact Hlogs|].
    eapply under_trans; [exact Hresults|now apply under_join].
  - intros task cmd filename Htask Hname.
    assert (Htl : under out (path_join (path_join (path_join out (seq_length_repr s))
                                          "logs") task)).
    { eapply under_trans; [exact Hlogs|]. apply under_join, task_name_is_relative.
      now apply Htasks. }
    unfold job_events. repeat constructor; [exact Htl|].
    eapply under_trans; [exact Htl|]. apply under_join.
    destruct Hname as [->| ->]; reflexivity.
Qed.

End Proofs.

(** X16 at star attention over one validated length and one task. *)
Lemma files_stay_under_the_output_directory_witness :
  exists l,
    effects (snd (main sample_env "/models/llama3" "star" 4096 4096 "llama3" [16384]
                       ["qa1"] (Some 8) "/results" 1 None empty_world))
    = effects empty_world ++ l
    /\ Forall (stays_under "/results") l.
Proof.
  apply files_stay_under_the_output_directory.
  - intros s [<-|[]]. vm_compute. reflexivity.
  - intros task [<-|[]]. vm_compute. left. reflexivity.
Defined.

End BabilongTrail.

(** ** The runs of the generator at concrete command lines *)

Module CommonWordsRunsAt.
Import Monad Monad.Notations Py CommonWords MonadFacts CommonWordsFacts CommonWordsRuns.

(** X7 at a budget of 1000: two records, numbered 0 and 1. *)
Lemma records_follow_the_indices_witness :
  exists rs st',
    run sample_env (sample_args 1000 30) sample_enumeration 30 = (inr rs, st')
    /\ map index rs = [0; 1] /\ length rs = 2%nat /\ (2 <= 0 -> rs = []).
Proof.
  do 2 eexists. split; [vm_compute; reflexivity|].
  eapply (records_follow_the_indices sample_env (sample_args 1000 30) sample_words 1000 10
                                     30%nat 2 initial_state).
  vm_compute. reflexivity.
Defined.

(** X8 at a budget of 1000: the search stops at the size of the pool. *)
Lemma calibrated_count_is_within_the_pool_witness :
  0 <= 26 <= Z.max 10 (Z.of_nat (length sample_words))
  /\ (26 = Z.of_nat (length sample_words) \/ exists j, 0 <= j /\ 26 = j * 10).
Proof.
  eapply (calibrated_count_is_within_the_pool sample_env (sample_args 1000 30) sample_words
                                              1000 10 30%nat initial_state);
    [lia|vm_compute; reflexivity].
Defined.

(** X9 at a budget of 1000: two progress lines, then the count. *)
Lemma output_is_the_search_then_the_count_witness :
  exists trials k,
    search (sample_args 1000 30) sample_words 1000 10 10 0 trials k
    /\ printed (snd (run sample_env (sample_args 1000 30) sample_enumeration 30))
       = printed initial_state ++ map (trial_line 1000) trials ++ [NumWords k].
Proof.
  eapply (output_is_the_search_then_the_count sample_env (sample_args 1000 30) sample_words
            1000 10 30%nat 2 initial_state _
            (snd (run sample_env (sample_args 1000 30) sample_enumeration 30))).
  vm_compute. reflexivity.
Defined.

(** X10 with an increment of 10, from 26 words, at the third attempt. *)
Lemma retry_counts_settle_at_the_floor_witness :
  fst (retry_state sample_env (sample_args 200 30) sample_words 200 10 3 26 initial_state)
  <= 26.
Proof.
  refine (proj1 (retry_counts_settle_at_the_floor sample_env (sample_args 200 30)
                   sample_words 200 10 3 26 initial_state _)).
  lia.
Defined.


Lemma rotating_sample_refuses : refuses_large_draws sample_env.
Proof.
  intros population k r Hk. cbn [sample sample_env]. unfold rotating_sample.
  destruct (k <? 0); [reflexivity|]. cbn [orb].
  destruct (Z.of_nat (length population) <? k) eqn:H; [reflexivity|lia].
Qed.

(** X12 with a pool of five words. *)
Lemma pool_below_the_example_size_witness :
  exists msg,
    generate_input_output sample_env (sample_args 1000 30) small_pool 3 initial_state
    = (inl (Exception (ValueError msg)), initial_state).
Proof.
  refine (proj1 (pool_below_the_example_size sample_env (sample_args 1000 30) small_pool
                   1000 10 rotating_sample_refuses _) 3 initial_state).
  vm_compute. reflexivity.
Defined.

(** X13 with the sample word lists, where [noun3] is listed twice. *)
Lemma word_pool_lists_the_corpus_once_witness :
  NoDup sample_words
  /\ (forall x, x ∈ sample_words <-> x ∈ corpus sample_env)
  /\ length sample_words = length sample_enumeration.
Proof.
  apply (word_pool_lists_the_corpus_once sample_env 42 sample_enumeration).
  - intros n l. cbn [seeded_shuffle sample_env]. symmetry. apply Permutation_rev.
  - apply NoDup_remove_dups.
  - intros x. apply elem_of_remove_dups.
Defined.

End CommonWordsRunsAt.
